(** * gocpp/log: a shallow embedding of [log.go]

    The package is a configuration layer over zap (structured logging) and
    lumberjack (file rotation), plus a panic-recovery hook that writes crash
    dumps.  The embedding follows the source function by function: the Go
    packages the source calls become small modules ([fmt], [strings], [os],
    [time], [zapcore], [zap], [lumberjack]), package-level variables become a
    record of globals threaded through every operation, and objects reached
    through pointers ([*Logger]) live in a store indexed by address. *)

From Stdlib Require Import ZArith String Ascii List Bool Lia.
From stdpp Require Import base gmap strings pretty list.

Local Open Scope Z_scope.
Local Open Scope string_scope.

(* ===================================================================== *)
(** ** Go's [int]                                                         *)
(* ===================================================================== *)

(** [int] is 64 bits wide on the platforms the package targets; addition
    wraps around in two's complement. *)
Definition int_min : Z := - 2 ^ 63.
Definition int_max : Z := 2 ^ 63 - 1.
Definition wrap_int (z : Z) : Z := (z + 2 ^ 63) mod 2 ^ 64 - 2 ^ 63.
Definition int_add (a b : Z) : Z := wrap_int (a + b).

(* ===================================================================== *)
(** ** Package [strings]                                                  *)
(* ===================================================================== *)

Module strings.

Fixpoint ContainsByte (cutset : string) (c : ascii) : bool :=
  match cutset with
  | EmptyString => false
  | String d r => if Ascii.eqb c d then true else ContainsByte r c
  end.

(** [strings.TrimRight(s, cutset)]: [s] without its trailing bytes that
    occur in [cutset] (the source only uses the one-byte cutset "/"). *)
Fixpoint TrimRight (s cutset : string) : string :=
  match s with
  | EmptyString => EmptyString
  | String c r =>
      match TrimRight r cutset with
      | EmptyString =>
          if ContainsByte cutset c then EmptyString else String c EmptyString
      | r' => String c r'
      end
  end.

End strings.

(* ===================================================================== *)
(** ** Package [fmt]: the verbs the source uses                           *)
(* ===================================================================== *)

Module fmt.

Fixpoint zeros (n : nat) : string :=
  match n with
  | O => EmptyString
  | S k => String "0"%char (zeros k)
  end.

(** [%d]: base-10 rendering of an integer, "-" in front of a negative
    one. *)
Definition d (z : Z) : string := pretty z.

(** [%0<w>d]: as [%d], padded with zeros up to [w] bytes; the sign of a
    negative number counts in the width and stays in front. *)
Definition d0 (w : nat) (z : Z) : string :=
  let digits := pretty (Z.abs_N z) in
  if (z <? 0)%Z
  then "-" +:+ zeros (w - 1 - String.length digits)%nat +:+ digits
  else zeros (w - String.length digits)%nat +:+ digits.

End fmt.

(* ===================================================================== *)
(** ** Package [time]                                                     *)
(* ===================================================================== *)

Module time.

(** What the source reads off a [time.Time]: the calendar fields of the
    local time and the default ([%v]) rendering. *)
Record Time := {
  Year : Z;
  Month : Z;
  Day : Z;
  Hour : Z;
  Minute : Z;
  Second : Z;
  String_ : string
}.

End time.

(* ===================================================================== *)
(** ** Package [os]: a file system                                        *)
(* ===================================================================== *)

Module os.

Inductive Node :=
| File (data : string)
| Dir.

Record FileInfo := { IsDir : bool }.

(** [os.Stat]: the entry at [name], or an error when there is none. *)
Definition Stat (fs : gmap string Node) (name : string) : FileInfo + string :=
  match fs !! name with
  | Some Dir => inl {| IsDir := true |}
  | Some (File _) => inl {| IsDir := false |}
  | None => inr ("stat " +:+ name +:+ ": no such file or directory")
  end.

Definition ends_with_slash (s : string) : bool :=
  match strings.TrimRight s "/" with
  | EmptyString => true
  | t => negb (String.eqb t s)
  end.

(** The directories above [s]: every prefix of [s] that stops right
    before a "/", outermost first (the root itself is left out). *)
Fixpoint ancestors_from (pre s : string) : list string :=
  match s with
  | EmptyString => []
  | String c r =>
      if Ascii.eqb c "/"%char
      then (if ends_with_slash pre then [] else [pre])
             ++ ancestors_from (pre +:+ "/") r
      else ancestors_from (pre +:+ String c EmptyString) r
  end.

Definition ancestors (s : string) : list string := ancestors_from "" s.

(** [os.Mkdir] along a chain of directories, outermost first; stops at
    the first one that cannot be made (a regular file in the way, or the
    system refusing). *)
Fixpoint mkdirs (denied : string -> bool) (fs : gmap string Node)
                (ps : list string) : gmap string Node :=
  match ps with
  | [] => fs
  | p :: rest =>
      match fs !! p with
      | Some Dir => mkdirs denied fs rest
      | Some (File _) => fs
      | None => if denied p then fs
                else mkdirs denied (<[p := Dir]> fs) rest
      end
  end.

(** [os.MkdirAll(path, perm)]; the source drops its error. *)
Definition MkdirAll (denied : string -> bool) (fs : gmap string Node)
                    (path : string) : gmap string Node :=
  mkdirs denied fs (ancestors (path +:+ "/")).

(** [os.OpenFile(name, O_RDWR|O_APPEND|O_CREATE, perm)]: the file system
    after the call, or the error. *)
Definition OpenFile (denied : string -> bool) (fs : gmap string Node)
                    (name : string) : gmap string Node + string :=
  match fs !! name with
  | Some Dir => inr ("open " +:+ name +:+ ": is a directory")
  | Some (File _) =>
      if denied name
      then inr ("open " +:+ name +:+ ": permission denied")
      else inl fs
  | None =>
      if denied name
      then inr ("open " +:+ name +:+ ": permission denied")
      else
        match last (ancestors name) with
        | None => inl (<[name := File ""]> fs)
        | Some parent =>
            match fs !! parent with
            | Some Dir => inl (<[name := File ""]> fs)
            | Some (File _) => inr ("open " +:+ name +:+ ": not a directory")
            | None =>
                inr ("open " +:+ name +:+ ": no such file or directory")
            end
        end
  end.

(** A write through a handle opened with [O_APPEND]. *)
Definition append (fs : gmap string Node) (name data : string)
  : gmap string Node :=
  match fs !! name with
  | Some (File old) => <[name := File (old +:+ data)]> fs
  | _ => fs
  end.

End os.

(* ===================================================================== *)
(** ** The crash recorder: [newDumpFile] and [CatchException]             *)
(* ===================================================================== *)

(** What the process reads from its surroundings. *)
Record Env := {
  (** [filepath.Abs(filepath.Dir(os.Args[0]))] *)
  binDir : string;
  (** [filepath.Abs(filepath.Dir(filepath.Join(".")))], the working
      directory *)
  cwd : string;
  (** [string(filepath.Separator)] *)
  sp : string;
  (** successive readings of [time.Now()] *)
  clock : nat -> time.Time;
  (** paths the system refuses to create or open for writing *)
  denied : string -> bool;
  (** [string(debug.Stack())] *)
  stack : string
}.

(** An [interface{}] value as [recover] hands it out: nil, or a value,
    kept as its [%#v] rendering. *)
Inductive iface :=
| nil_iface
| val_iface (gostring : string).

Record World := {
  fs : gmap string os.Node;
  (** bytes written to standard output *)
  stdout : string;
  (** how many times [time.Now()] was called *)
  ticks : nat;
  (** the panic that is unwinding the goroutine, if any *)
  panicking : option iface
}.

Definition set_fs (f : gmap string os.Node) (w : World) : World :=
  {| fs := f; stdout := stdout w; ticks := ticks w; panicking := panicking w |}.

Definition time_Now (env : Env) (w : World) : time.Time * World :=
  (clock env (ticks w),
   {| fs := fs w; stdout := stdout w; ticks := S (ticks w);
      panicking := panicking w |}).

Definition nl : string := String (ascii_of_nat 10) EmptyString.
Definition tab : string := String (ascii_of_nat 9) EmptyString.

(** [fmt.Println(s)] *)
Definition Println (s : string) (w : World) : World :=
  {| fs := fs w; stdout := stdout w +:+ s +:+ nl; ticks := ticks w;
     panicking := panicking w |}.

(** The closure [isFileExist] of [newDumpFile]. *)
Definition isFileExist (f : gmap string os.Node) (fn : string) : bool :=
  match os.Stat f fn with
  | inr _ => false
  | inl finfo => if os.IsDir finfo then false else true
  end.

(** The [for] loop of [newDumpFile], from counter [n] on.  The loop has no
    bound of its own; [fuel] bounds the number of probes. *)
Fixpoint probe (fuel : nat) (f : gmap string os.Node)
               (dir filename : string) (n : Z) : option string :=
  match fuel with
  | O => None
  | S k =>
      let fn := dir +:+ filename +:+ "_" +:+ fmt.d n +:+ ".log" in
      if negb (isFileExist f fn) then Some fn
      else probe k f dir filename (int_add n 1)
  end.

Definition dump_filename (now : time.Time) : string :=
  "exceptions." +:+ fmt.d0 2 (time.Hour now) +:+ "_"
    +:+ fmt.d0 2 (time.Minute now) +:+ "_" +:+ fmt.d0 2 (time.Second now).

Definition dump_dir (env : Env) (now : time.Time) : string :=
  strings.TrimRight (binDir env) "/" +:+ "/exceptions/"
    +:+ fmt.d0 4 (time.Year now) +:+ "-" +:+ fmt.d0 2 (time.Month now)
    +:+ "-" +:+ fmt.d0 2 (time.Day now) +:+ "/".

Definition newDumpFile (fuel : nat) (env : Env) (w : World)
  : option (string * World) :=
  let '(now, w) := time_Now env w in
  let filename := dump_filename now in
  let dir := dump_dir env now in
  let w := set_fs (os.MkdirAll (denied env) (fs w) dir) w in
  let fn := dir +:+ filename +:+ ".log" in
  if negb (isFileExist (fs w) fn) then Some (fn, w)
  else
    match probe fuel (fs w) dir filename 1 with
    | Some fn => Some (fn, w)
    | None => None
    end.

(** [recover()], called by a function that was deferred directly (as in
    [defer log.CatchException()]): hands out the panic value and stops
    the unwinding. *)
Definition recover (w : World) : iface * World :=
  (match panicking w with Some v => v | None => nil_iface end,
   {| fs := fs w; stdout := stdout w; ticks := ticks w; panicking := None |}).

Definition rule : string :=
  "===============================================================================".

Definition strLog (now : time.Time) (gostring stk : string) : string :=
  nl +:+ rule +:+ nl
     +:+ "TIME: " +:+ time.String_ now +:+ nl
     +:+ "EXCEPTION: " +:+ gostring +:+ nl
     +:+ rule +:+ tab +:+ tab +:+ nl
     +:+ stk.

Definition CatchException (fuel : nat) (env : Env) (w : World)
  : option World :=
  let '(err, w) := recover w in
  match err with
  | nil_iface => Some w
  | val_iface v =>
      match newDumpFile fuel env w with
      | None => None
      | Some (fn, w) =>
          match os.OpenFile (denied env) (fs w) fn with
          | inr err2 => Some (Println err2 w)
          | inl f =>
              let w := set_fs f w in
              let '(now, w) := time_Now env w in
              let s := strLog now v (stack env) in
              (* logger.Println(strLog): flags 0, empty prefix *)
              let w := set_fs (os.append (fs w) fn (s +:+ nl)) w in
              Some (Println s w)
          end
      end
  end.


(* ===================================================================== *)
(** ** Package [lumberjack]                                               *)
(* ===================================================================== *)

Module lumberjack.

(** The fields of [lumberjack.Logger] the source sets. *)
Record Logger := {
  Filename : string;
  MaxSize : Z;
  MaxBackups : Z;
  MaxAge : Z;
  Compress : bool;
  LocalTime : bool
}.

End lumberjack.

(* ===================================================================== *)
(** ** Package [zapcore]                                                  *)
(* ===================================================================== *)

Module zapcore.

(** [type Level int8] *)
Definition Level := Z.
Definition DebugLevel : Level := -1.
Definition InfoLevel : Level := 0.
Definition WarnLevel : Level := 1.
Definition ErrorLevel : Level := 2.
Definition DPanicLevel : Level := 3.
Definition PanicLevel : Level := 4.
Definition FatalLevel : Level := 5.

Inductive LevelEncoder :=
| LowercaseLevelEncoder
| CapitalLevelEncoder
| CapitalColorLevelEncoder.

(** The time encoders of the library and, as [LayoutTimeEncoder], an
    encoder that appends [t.Format(layout)]. *)
Inductive TimeEncoder :=
| EpochTimeEncoder
| ISO8601TimeEncoder
| LayoutTimeEncoder (layout : string).

Inductive DurationEncoder :=
| SecondsDurationEncoder
| StringDurationEncoder.

Inductive CallerEncoder :=
| ShortCallerEncoder.

(** Function-valued fields are [None] in the zero value. *)
Record EncoderConfig := {
  MessageKey : string;
  LevelKey : string;
  TimeKey : string;
  NameKey : string;
  CallerKey : string;
  FunctionKey : string;
  StacktraceKey : string;
  LineEnding : string;
  EncodeLevel : option LevelEncoder;
  EncodeTime : option TimeEncoder;
  EncodeDuration : option DurationEncoder;
  EncodeCaller : option CallerEncoder
}.

Definition set_EncodeTime (e : TimeEncoder) (c : EncoderConfig)
  : EncoderConfig :=
  {| MessageKey := MessageKey c; LevelKey := LevelKey c;
     TimeKey := TimeKey c; NameKey := NameKey c; CallerKey := CallerKey c;
     FunctionKey := FunctionKey c; StacktraceKey := StacktraceKey c;
     LineEnding := LineEnding c; EncodeLevel := EncodeLevel c;
     EncodeTime := Some e; EncodeDuration := EncodeDuration c;
     EncodeCaller := EncodeCaller c |}.

Definition set_EncodeLevel (e : LevelEncoder) (c : EncoderConfig)
  : EncoderConfig :=
  {| MessageKey := MessageKey c; LevelKey := LevelKey c;
     TimeKey := TimeKey c; NameKey := NameKey c; CallerKey := CallerKey c;
     FunctionKey := FunctionKey c; StacktraceKey := StacktraceKey c;
     LineEnding := LineEnding c; EncodeLevel := Some e;
     EncodeTime := EncodeTime c; EncodeDuration := EncodeDuration c;
     EncodeCaller := EncodeCaller c |}.

Definition DefaultLineEnding : string := String (ascii_of_nat 10) EmptyString.

Inductive Encoder :=
| NewJSONEncoder (cfg : EncoderConfig)
| NewConsoleEncoder (cfg : EncoderConfig).

(** Where a core writes.  A [lumberjack.Logger] is reached through its
    address in the store of rotating writers; [nil_WriteSyncer] is the
    nil interface value. *)
Inductive WriteSyncer :=
| nil_WriteSyncer
| Stdout
| Lumberjack (addr : nat)
| Paths (ps : list string).

(** What decides whether a core takes a record: a fixed level, the
    atomic level of the configuration of the [Logger] at an address
    (what [Config.Build] hands to the core it makes), or a function
    closed over the [Logger] at an address (the [LevelEnablerFunc] made
    in [cores]). *)
Inductive LevelEnabler :=
| AtLevel (lvl : Level)
| AtomicLevelOf (owner : nat)
| LevelEnablerFunc (captured : nat).

Record ioCore := {
  enc : Encoder;
  out : WriteSyncer;
  enab : LevelEnabler
}.

(** A core is a fan-out over writer cores; one writer core is the
    fan-out of length one. *)
Definition Core := list ioCore.

Definition NewCore (e : Encoder) (ws : WriteSyncer) (en : LevelEnabler)
  : Core :=
  [ {| enc := e; out := ws; enab := en |} ].

Definition NewTee (cores : list Core) : Core := concat cores.

End zapcore.

(* ===================================================================== *)
(** ** Package [zap]                                                      *)
(* ===================================================================== *)

Module zap.

Record SamplingConfig := { Initial : Z; Thereafter : Z }.

(** [zap.Config]; [Level] is an [AtomicLevel], a pointer that is nil
    ([None]) in the zero value.  No other copy of the pointer is ever
    read, so the level is kept in place. *)
Record Config := {
  Level : option zapcore.Level;
  Development : bool;
  DisableCaller : bool;
  DisableStacktrace : bool;
  Sampling : option SamplingConfig;
  Encoding : string;
  EncoderConfig : zapcore.EncoderConfig;
  OutputPaths : list string;
  ErrorOutputPaths : list string
}.

Definition zero_EncoderConfig : zapcore.EncoderConfig :=
  {| zapcore.MessageKey := ""; zapcore.LevelKey := "";
     zapcore.TimeKey := ""; zapcore.NameKey := "";
     zapcore.CallerKey := ""; zapcore.FunctionKey := "";
     zapcore.StacktraceKey := ""; zapcore.LineEnding := "";
     zapcore.EncodeLevel := None; zapcore.EncodeTime := None;
     zapcore.EncodeDuration := None; zapcore.EncodeCaller := None |}.

Definition zero_Config : Config :=
  {| Level := None; Development := false; DisableCaller := false;
     DisableStacktrace := false; Sampling := None; Encoding := "";
     EncoderConfig := zero_EncoderConfig; OutputPaths := [];
     ErrorOutputPaths := [] |}.

Definition NewProductionEncoderConfig : zapcore.EncoderConfig :=
  {| zapcore.MessageKey := "msg"; zapcore.LevelKey := "level";
     zapcore.TimeKey := "ts"; zapcore.NameKey := "logger";
     zapcore.CallerKey := "caller"; zapcore.FunctionKey := "";
     zapcore.StacktraceKey := "stacktrace";
     zapcore.LineEnding := zapcore.DefaultLineEnding;
     zapcore.EncodeLevel := Some zapcore.LowercaseLevelEncoder;
     zapcore.EncodeTime := Some zapcore.EpochTimeEncoder;
     zapcore.EncodeDuration := Some zapcore.SecondsDurationEncoder;
     zapcore.EncodeCaller := Some zapcore.ShortCallerEncoder |}.

Definition NewProductionConfig : Config :=
  {| Level := Some zapcore.InfoLevel; Development := false;
     DisableCaller := false; DisableStacktrace := false;
     Sampling := Some {| Initial := 100; Thereafter := 100 |};
     Encoding := "json"; EncoderConfig := NewProductionEncoderConfig;
     OutputPaths := ["stderr"]; ErrorOutputPaths := ["stderr"] |}.

Definition NewDevelopmentEncoderConfig : zapcore.EncoderConfig :=
  {| zapcore.MessageKey := "M"; zapcore.LevelKey := "L";
     zapcore.TimeKey := "T"; zapcore.NameKey := "N";
     zapcore.CallerKey := "C"; zapcore.FunctionKey := "";
     zapcore.StacktraceKey := "S";
     zapcore.LineEnding := zapcore.DefaultLineEnding;
     zapcore.EncodeLevel := Some zapcore.CapitalLevelEncoder;
     zapcore.EncodeTime := Some zapcore.ISO8601TimeEncoder;
     zapcore.EncodeDuration := Some zapcore.StringDurationEncoder;
     zapcore.EncodeCaller := Some zapcore.ShortCallerEncoder |}.

Definition NewDevelopmentConfig : Config :=
  {| Level := Some zapcore.DebugLevel; Development := true;
     DisableCaller := false; DisableStacktrace := false;
     Sampling := None;
     Encoding := "console"; EncoderConfig := NewDevelopmentEncoderConfig;
     OutputPaths := ["stderr"]; ErrorOutputPaths := ["stderr"] |}.

Definition set_EncoderConfig (e : zapcore.EncoderConfig) (c : Config)
  : Config :=
  {| Level := Level c; Development := Development c;
     DisableCaller := DisableCaller c;
     DisableStacktrace := DisableStacktrace c; Sampling := Sampling c;
     Encoding := Encoding c; EncoderConfig := e;
     OutputPaths := OutputPaths c;
     ErrorOutputPaths := ErrorOutputPaths c |}.

Definition set_OutputPaths (ps : list string) (c : Config) : Config :=
  {| Level := Level c; Development := Development c;
     DisableCaller := DisableCaller c;
     DisableStacktrace := DisableStacktrace c; Sampling := Sampling c;
     Encoding := Encoding c; EncoderConfig := EncoderConfig c;
     OutputPaths := ps; ErrorOutputPaths := ErrorOutputPaths c |}.

Definition set_DisableStacktrace (b : bool) (c : Config) : Config :=
  {| Level := Level c; Development := Development c;
     DisableCaller := DisableCaller c; DisableStacktrace := b;
     Sampling := Sampling c; Encoding := Encoding c;
     EncoderConfig := EncoderConfig c; OutputPaths := OutputPaths c;
     ErrorOutputPaths := ErrorOutputPaths c |}.

Definition set_Level (lvl : zapcore.Level) (c : Config) : Config :=
  {| Level := Some lvl; Development := Development c;
     DisableCaller := DisableCaller c;
     DisableStacktrace := DisableStacktrace c; Sampling := Sampling c;
     Encoding := Encoding c; EncoderConfig := EncoderConfig c;
     OutputPaths := OutputPaths c;
     ErrorOutputPaths := ErrorOutputPaths c |}.

(** [*zap.Logger]: the core its records go to. *)
Record Logger := { core : zapcore.Core }.

Definition New (c : zapcore.Core) : Logger := {| core := c |}.

(** [zap.Option]: the source only makes [WrapCore] ones. *)
Inductive Option :=
| WrapCore (f : zapcore.Core -> zapcore.Core).

Definition WithOptions (opts : list Option) (lg : Logger) : Logger :=
  fold_left (fun lg o => match o with
                         | WrapCore f => {| core := f (core lg) |}
                         end) opts lg.

Definition encoder_registered (name : string) : bool :=
  String.eqb name "json" || String.eqb name "console".

Definition buildEncoder (cfg : Config) : zapcore.Encoder + string :=
  if String.eqb (Encoding cfg) "json"
  then inl (zapcore.NewJSONEncoder (EncoderConfig cfg))
  else if String.eqb (Encoding cfg) "console"
  then inl (zapcore.NewConsoleEncoder (EncoderConfig cfg))
  else inr ("no encoder registered for name " +:+ Encoding cfg).

(** A sink path opens when it names a standard stream or a file the
    system lets the process write. *)
Definition sink_opens (denied : string -> bool) (path : string) : bool :=
  String.eqb path "stdout" || String.eqb path "stderr"
  || negb (denied path).

(** [cfg.Build(opts...)], on the address [owner] of the [Logger] whose
    configuration [cfg] is.  The options of the configuration itself
    (sampling, caller, stack traces) wrap the core made here and are
    not kept apart from it. *)
Definition Build (denied : string -> bool) (owner : nat) (cfg : Config)
                 (opts : list Option) : Logger + string :=
  match buildEncoder cfg with
  | inr e => inr e
  | inl enc =>
      if negb (forallb (sink_opens denied)
                       (OutputPaths cfg ++ ErrorOutputPaths cfg))
      then inr "couldn't open sink"
      else
        match Level cfg with
        | None => inr "missing Level"
        | Some _ =>
            inl (WithOptions opts
                   (New (zapcore.NewCore enc
                           (zapcore.Paths (OutputPaths cfg))
                           (zapcore.AtomicLevelOf owner))))
        end
  end.

End zap.

(* ===================================================================== *)
(** ** Package [log]: options                                             *)
(* ===================================================================== *)

(** [Options] embeds a [zap.Config]; its promoted fields are reached
    through [Config].  The fields [Level] and [Development] declared in
    [Options] itself shadow the promoted ones of the same name. *)
Record Options := {
  LogFileDir : string;
  AppName : string;
  FileName : string;
  ErrorFileName : string;
  WarnFileName : string;
  InfoFileName : string;
  DebugFileName : string;
  Level : zapcore.Level;
  MaxSize : Z;
  MaxBackups : Z;
  MaxAge : Z;
  Development : bool;
  Config : zap.Config;
  Merge : bool
}.

(** [type Option func(options *Options)]: what the call does to the
    options it is handed.  An option here is a function value that is not
    nil, that returns, and that writes nothing but the [Options] it is
    handed, as the functions the [With...] constructors make are.  A nil
    option, or one that panics, stops [NewLogger] at [fn(l.Opts)] and has
    no counterpart here. *)
Definition Option := Options -> Options.

Definition WithMaxSize (MaxSize' : Z) : Option := fun option =>
  {| LogFileDir := LogFileDir option; AppName := AppName option;
     FileName := FileName option; ErrorFileName := ErrorFileName option;
     WarnFileName := WarnFileName option;
     InfoFileName := InfoFileName option;
     DebugFileName := DebugFileName option; Level := Level option;
     MaxSize := MaxSize'; MaxBackups := MaxBackups option;
     MaxAge := MaxAge option; Development := Development option;
     Config := Config option; Merge := Merge option |}.

Definition WithMaxBackups (MaxBackups' : Z) : Option := fun option =>
  {| LogFileDir := LogFileDir option; AppName := AppName option;
     FileName := FileName option; ErrorFileName := ErrorFileName option;
     WarnFileName := WarnFileName option;
     InfoFileName := InfoFileName option;
     DebugFileName := DebugFileName option; Level := Level option;
     MaxSize := MaxSize option; MaxBackups := MaxBackups';
     MaxAge := MaxAge option; Development := Development option;
     Config := Config option; Merge := Merge option |}.

Definition WithMaxAge (MaxAge' : Z) : Option := fun option =>
  {| LogFileDir := LogFileDir option; AppName := AppName option;
     FileName := FileName option; ErrorFileName := ErrorFileName option;
     WarnFileName := WarnFileName option;
     InfoFileName := InfoFileName option;
     DebugFileName := DebugFileName option; Level := Level option;
     MaxSize := MaxSize option; MaxBackups := MaxBackups option;
     MaxAge := MaxAge'; Development := Development option;
     Config := Config option; Merge := Merge option |}.

Definition WithLogFileDir (LogFileDir' : string) : Option := fun option =>
  {| LogFileDir := LogFileDir'; AppName := AppName option;
     FileName := FileName option; ErrorFileName := ErrorFileName option;
     WarnFileName := WarnFileName option;
     InfoFileName := InfoFileName option;
     DebugFileName := DebugFileName option; Level := Level option;
     MaxSize := MaxSize option; MaxBackups := MaxBackups option;
     MaxAge := MaxAge option; Development := Development option;
     Config := Config option; Merge := Merge option |}.

Definition WithAppName (AppName' : string) : Option := fun option =>
  {| LogFileDir := LogFileDir option; AppName := AppName';
     FileName := FileName option; ErrorFileName := ErrorFileName option;
     WarnFileName := WarnFileName option;
     InfoFileName := InfoFileName option;
     DebugFileName := DebugFileName option; Level := Level option;
     MaxSize := MaxSize option; MaxBackups := MaxBackups option;
     MaxAge := MaxAge option; Development := Development option;
     Config := Config option; Merge := Merge option |}.

Definition WithLevel (Level' : zapcore.Level) : Option := fun option =>
  {| LogFileDir := LogFileDir option; AppName := AppName option;
     FileName := FileName option; ErrorFileName := ErrorFileName option;
     WarnFileName := WarnFileName option;
     InfoFileName := InfoFileName option;
     DebugFileName := DebugFileName option; Level := Level';
     MaxSize := MaxSize option; MaxBackups := MaxBackups option;
     MaxAge := MaxAge option; Development := Development option;
     Config := Config option; Merge := Merge option |}.

Definition WithFileName (FileName' : string) : Option := fun option =>
  {| LogFileDir := LogFileDir option; AppName := AppName option;
     FileName := FileName'; ErrorFileName := ErrorFileName option;
     WarnFileName := WarnFileName option;
     InfoFileName := InfoFileName option;
     DebugFileName := DebugFileName option; Level := Level option;
     MaxSize := MaxSize option; MaxBackups := MaxBackups option;
     MaxAge := MaxAge option; Development := Development option;
     Config := Config option; Merge := Merge option |}.

Definition WithErrorFileName (ErrorFileName' : string) : Option :=
  fun option =>
  {| LogFileDir := LogFileDir option; AppName := AppName option;
     FileName := FileName option; ErrorFileName := ErrorFileName';
     WarnFileName := WarnFileName option;
     InfoFileName := InfoFileName option;
     DebugFileName := DebugFileName option; Level := Level option;
     MaxSize := MaxSize option; MaxBackups := MaxBackups option;
     MaxAge := MaxAge option; Development := Development option;
     Config := Config option; Merge := Merge option |}.

Definition WithWarnFileName (WarnFileName' : string) : Option :=
  fun option =>
  {| LogFileDir := LogFileDir option; AppName := AppName option;
     FileName := FileName option; ErrorFileName := ErrorFileName option;
     WarnFileName := WarnFileName';
     InfoFileName := InfoFileName option;
     DebugFileName := DebugFileName option; Level := Level option;
     MaxSize := MaxSize option; MaxBackups := MaxBackups option;
     MaxAge := MaxAge option; Development := Development option;
     Config := Config option; Merge := Merge option |}.

Definition WithInfoFileName (InfoFileName' : string) : Option :=
  fun option =>
  {| LogFileDir := LogFileDir option; AppName := AppName option;
     FileName := FileName option; ErrorFileName := ErrorFileName option;
     WarnFileName := WarnFileName option;
     InfoFileName := InfoFileName';
     DebugFileName := DebugFileName option; Level := Level option;
     MaxSize := MaxSize option; MaxBackups := MaxBackups option;
     MaxAge := MaxAge option; Development := Development option;
     Config := Config option; Merge := Merge option |}.

Definition WithDebugFileName (DebugFileName' : string) : Option :=
  fun option =>
  {| LogFileDir := LogFileDir option; AppName := AppName option;
     FileName := FileName option; ErrorFileName := ErrorFileName option;
     WarnFileName := WarnFileName option;
     InfoFileName := InfoFileName option;
     DebugFileName := DebugFileName'; Level := Level option;
     MaxSize := MaxSize option; MaxBackups := MaxBackups option;
     MaxAge := MaxAge option; Development := Development option;
     Config := Config option; Merge := Merge option |}.

Definition WithDevelopment (Development' : bool) : Option := fun option =>
  {| LogFileDir := LogFileDir option; AppName := AppName option;
     FileName := FileName option; ErrorFileName := ErrorFileName option;
     WarnFileName := WarnFileName option;
     InfoFileName := InfoFileName option;
     DebugFileName := DebugFileName option; Level := Level option;
     MaxSize := MaxSize option; MaxBackups := MaxBackups option;
     MaxAge := MaxAge option; Development := Development';
     Config := Config option; Merge := Merge option |}.

(** The calls a caller can write to make an [Option], as data. *)
Inductive OptionCall :=
| CallWithMaxSize (v : Z)
| CallWithMaxBackups (v : Z)
| CallWithMaxAge (v : Z)
| CallWithLogFileDir (v : string)
| CallWithAppName (v : string)
| CallWithLevel (v : zapcore.Level)
| CallWithFileName (v : string)
| CallWithErrorFileName (v : string)
| CallWithWarnFileName (v : string)
| CallWithInfoFileName (v : string)
| CallWithDebugFileName (v : string)
| CallWithDevelopment (v : bool).

Definition eval_call (c : OptionCall) : Option :=
  match c with
  | CallWithMaxSize v => WithMaxSize v
  | CallWithMaxBackups v => WithMaxBackups v
  | CallWithMaxAge v => WithMaxAge v
  | CallWithLogFileDir v => WithLogFileDir v
  | CallWithAppName v => WithAppName v
  | CallWithLevel v => WithLevel v
  | CallWithFileName v => WithFileName v
  | CallWithErrorFileName v => WithErrorFileName v
  | CallWithWarnFileName v => WithWarnFileName v
  | CallWithInfoFileName v => WithInfoFileName v
  | CallWithDebugFileName v => WithDebugFileName v
  | CallWithDevelopment v => WithDevelopment v
  end.

(** The fields of [Options] an option call can write, and a common type
    for what they hold. *)
Inductive Field :=
| FLogFileDir | FAppName | FFileName | FErrorFileName | FWarnFileName
| FInfoFileName | FDebugFileName | FLevel | FMaxSize | FMaxBackups
| FMaxAge | FDevelopment | FMerge.

Inductive FieldValue :=
| VString (s : string)
| VInt (z : Z)
| VBool (b : bool).

Definition read_field (f : Field) (o : Options) : FieldValue :=
  match f with
  | FLogFileDir => VString (LogFileDir o)
  | FAppName => VString (AppName o)
  | FFileName => VString (FileName o)
  | FErrorFileName => VString (ErrorFileName o)
  | FWarnFileName => VString (WarnFileName o)
  | FInfoFileName => VString (InfoFileName o)
  | FDebugFileName => VString (DebugFileName o)
  | FLevel => VInt (Level o)
  | FMaxSize => VInt (MaxSize o)
  | FMaxBackups => VInt (MaxBackups o)
  | FMaxAge => VInt (MaxAge o)
  | FDevelopment => VBool (Development o)
  | FMerge => VBool (Merge o)
  end.

(** The assignment in the body of each [With...] function. *)
Definition assigns (c : OptionCall) : Field * FieldValue :=
  match c with
  | CallWithMaxSize v => (FMaxSize, VInt v)
  | CallWithMaxBackups v => (FMaxBackups, VInt v)
  | CallWithMaxAge v => (FMaxAge, VInt v)
  | CallWithLogFileDir v => (FLogFileDir, VString v)
  | CallWithAppName v => (FAppName, VString v)
  | CallWithLevel v => (FLevel, VInt v)
  | CallWithFileName v => (FFileName, VString v)
  | CallWithErrorFileName v => (FErrorFileName, VString v)
  | CallWithWarnFileName v => (FWarnFileName, VString v)
  | CallWithInfoFileName v => (FInfoFileName, VString v)
  | CallWithDebugFileName v => (FDebugFileName, VString v)
  | CallWithDevelopment v => (FDevelopment, VBool v)
  end.

Definition Field_eqb (a b : Field) : bool :=
  match a, b with
  | FLogFileDir, FLogFileDir | FAppName, FAppName | FFileName, FFileName
  | FErrorFileName, FErrorFileName | FWarnFileName, FWarnFileName
  | FInfoFileName, FInfoFileName | FDebugFileName, FDebugFileName
  | FLevel, FLevel | FMaxSize, FMaxSize | FMaxBackups, FMaxBackups
  | FMaxAge, FMaxAge | FDevelopment, FDevelopment | FMerge, FMerge => true
  | _, _ => false
  end.

Definition touches (c : OptionCall) (f : Field) : bool :=
  Field_eqb (fst (assigns c)) f.

(** The per-severity file-name calls. *)
Definition per_severity_name (c : OptionCall) : bool :=
  match c with
  | CallWithErrorFileName _ | CallWithWarnFileName _
  | CallWithInfoFileName _ | CallWithDebugFileName _ => true
  | _ => false
  end.

(* ===================================================================== *)
(** ** Package [log]: the logger and the package-level variables          *)
(* ===================================================================== *)

(** [type Logger struct]: the embedded [*zap.Logger] and [Opts] are
    pointers, nil ([None]) in the zero value.  The embedded [RWMutex] has
    no counterpart: calls are taken one after the other. *)
Record Logger := {
  Logger_ : option zap.Logger;
  Opts : option Options;
  zapConfig : zap.Config;
  inited : bool
}.

Definition zero_Logger : Logger :=
  {| Logger_ := None; Opts := None; zapConfig := zap.zero_Config;
     inited := false |}.

Definition set_Logger_ (z : option zap.Logger) (lg : Logger) : Logger :=
  {| Logger_ := z; Opts := Opts lg; zapConfig := zapConfig lg;
     inited := inited lg |}.
Definition set_Opts (o : option Options) (lg : Logger) : Logger :=
  {| Logger_ := Logger_ lg; Opts := o; zapConfig := zapConfig lg;
     inited := inited lg |}.
Definition set_zapConfig (c : zap.Config) (lg : Logger) : Logger :=
  {| Logger_ := Logger_ lg; Opts := Opts lg; zapConfig := c;
     inited := inited lg |}.
Definition set_inited (b : bool) (lg : Logger) : Logger :=
  {| Logger_ := Logger_ lg; Opts := Opts lg; zapConfig := zapConfig lg;
     inited := b |}.

(** A method value [logger.Debug], [logger.Info], ... of a
    [*zap.Logger]: the receiver and the level of the method. *)
Record LogOutputFunc := {
  recv : option zap.Logger;
  at_level : zapcore.Level
}.

(** One record handed to one sink. *)
Record Write := {
  w_out : zapcore.WriteSyncer;
  w_enc : zapcore.Encoder;
  w_level : zapcore.Level;
  w_msg : string
}.

(** The package-level variables [l], [fileWs], [Debug], [Info], [Warn],
    [Error], the objects they point into ([loggers]: every [Logger] ever
    allocated, by address; [rotators]: every [lumberjack.Logger] ever
    constructed, by address), and the records written so far. *)
Record Globals := {
  l : option nat;
  fileWs : zapcore.WriteSyncer;
  Debug : LogOutputFunc;
  Info : LogOutputFunc;
  Warn : LogOutputFunc;
  Error : LogOutputFunc;
  loggers : list Logger;
  rotators : list lumberjack.Logger;
  written : list Write
}.

(** [consoleWs = zapcore.Lock(os.Stdout)] *)
Definition consoleWs : zapcore.WriteSyncer := zapcore.Stdout.

(** [timeEncoder] appends [t.Format("2006-01-02 15:04:05.000")]. *)
Definition timeEncoder : zapcore.TimeEncoder :=
  zapcore.LayoutTimeEncoder "2006-01-02 15:04:05.000".

(** *** Calls that may panic, over the package-level variables *)

Inductive Outcome (A : Type) :=
| Returned (a : A)
| Panicked (v : string).
Arguments Returned {A} a.
Arguments Panicked {A} v.

Definition M (A : Type) : Type := Globals -> Outcome A * Globals.

Definition ret {A} (a : A) : M A := fun g => (Returned a, g).
Definition panic {A} (v : string) : M A := fun g => (Panicked v, g).
Definition bind {A B} (m : M A) (k : A -> M B) : M B := fun g =>
  match m g with
  | (Returned a, g') => k a g'
  | (Panicked v, g') => (Panicked v, g')
  end.
Definition get : M Globals := fun g => (Returned g, g).
Definition put (g : Globals) : M unit := fun _ => (Returned tt, g).

Notation "'let*' x ':=' m 'in' k" := (bind m (fun x => k))
  (at level 10, x name, m at level 100, k at level 200).
Notation "m '>>' k" := (bind m (fun _ => k))
  (at level 90, right associativity).

Definition nil_dereference : string :=
  "runtime error: invalid memory address or nil pointer dereference".

Definition set_l (p : option nat) : M unit := fun g =>
  (Returned tt,
   {| l := p; fileWs := fileWs g; Debug := Debug g; Info := Info g;
      Warn := Warn g; Error := Error g; loggers := loggers g;
      rotators := rotators g; written := written g |}).

Definition set_fileWs (ws : zapcore.WriteSyncer) : M unit := fun g =>
  (Returned tt,
   {| l := l g; fileWs := ws; Debug := Debug g; Info := Info g;
      Warn := Warn g; Error := Error g; loggers := loggers g;
      rotators := rotators g; written := written g |}).

Definition set_loggers (ls : list Logger) : M unit := fun g =>
  (Returned tt,
   {| l := l g; fileWs := fileWs g; Debug := Debug g; Info := Info g;
      Warn := Warn g; Error := Error g; loggers := ls;
      rotators := rotators g; written := written g |}).

(** [&Logger{}] *)
Definition new_Logger : M nat := fun g =>
  bind (set_loggers (loggers g ++ [zero_Logger]))
       (fun _ => ret (length (loggers g))) g.

(** [&lumberjack.Logger{...}] *)
Definition new_rotator (r : lumberjack.Logger) : M nat := fun g =>
  (Returned (length (rotators g)),
   {| l := l g; fileWs := fileWs g; Debug := Debug g; Info := Info g;
      Warn := Warn g; Error := Error g; loggers := loggers g;
      rotators := rotators g ++ [r]; written := written g |}).

Definition load (p : nat) : M Logger := fun g =>
  match loggers g !! p with
  | Some lg => (Returned lg, g)
  | None => (Panicked nil_dereference, g)
  end.

Definition store (p : nat) (lg : Logger) : M unit := fun g =>
  set_loggers (<[p := lg]> (loggers g)) g.

Definition modify (p : nat) (f : Logger -> Logger) : M unit :=
  let* lg := load p in store p (f lg).

(** [l.Opts], dereferenced. *)
Definition load_Opts (p : nat) : M Options :=
  let* lg := load p in
  match Opts lg with
  | Some o => ret o
  | None => panic nil_dereference
  end.

Definition emit (ws : list Write) : M unit := fun g =>
  (Returned tt,
   {| l := l g; fileWs := fileWs g; Debug := Debug g; Info := Info g;
      Warn := Warn g; Error := Error g; loggers := loggers g;
      rotators := rotators g; written := written g ++ ws |}).

Definition rebind (d i w e : LogOutputFunc) : M unit := fun g =>
  (Returned tt,
   {| l := l g; fileWs := fileWs g; Debug := d; Info := i;
      Warn := w; Error := e; loggers := loggers g;
      rotators := rotators g; written := written g |}).

(** *** Severity filter *)

(** [l.zapConfig.Level.Level()], for the [Logger] at [p]. *)
Definition zapConfig_Level (p : nat) : M zapcore.Level :=
  let* lg := load p in
  match zap.Level (zapConfig lg) with
  | Some m => ret m
  | None => panic nil_dereference
  end.

(** The closure [filePriority] of [cores], closed over the receiver
    [p]. *)
Definition filePriority (p : nat) (lvl : zapcore.Level) : M bool :=
  let* m := zapConfig_Level p in ret (lvl >=? m)%Z.

(** [enab.Enabled(lvl)] *)
Definition Enabled (en : zapcore.LevelEnabler) (lvl : zapcore.Level)
  : M bool :=
  match en with
  | zapcore.AtLevel m => ret (lvl >=? m)%Z
  | zapcore.AtomicLevelOf p =>
      let* m := zapConfig_Level p in ret (lvl >=? m)%Z
  | zapcore.LevelEnablerFunc p => filePriority p lvl
  end.

(** [core.Check]: each writer core of the fan-out joins when its enabler
    lets the level through. *)
Fixpoint Check (c : zapcore.Core) (lvl : zapcore.Level)
  : M (list zapcore.ioCore) :=
  match c with
  | [] => ret []
  | io :: rest =>
      let* b := Enabled (zapcore.enab io) lvl in
      let* cs := Check rest lvl in
      ret (if b then io :: cs else cs)
  end.

Definition write_of (lvl : zapcore.Level) (msg : string)
                    (io : zapcore.ioCore) : Write :=
  {| w_out := zapcore.out io; w_enc := zapcore.enc io; w_level := lvl;
     w_msg := msg |}.

(** [logger.Debug], [logger.Info], [logger.Warn], [logger.Error] of a
    [*zap.Logger], by level: the record goes to every core that joined. *)
Definition zap_log (lg : option zap.Logger) (lvl : zapcore.Level)
                   (msg : string) : M unit :=
  match lg with
  | None => panic nil_dereference
  | Some z =>
      let* cs := Check (zap.core z) lvl in
      emit (map (write_of lvl msg) cs)
  end.

(** Calling a method value. *)
Definition call (f : LogOutputFunc) (msg : string) : M unit :=
  zap_log (recv f) (at_level f) msg.

(** [l.Info(msg)] on the [Logger] at [p], through the embedded
    [*zap.Logger]. *)
Definition Logger_Info (p : nat) (msg : string) : M unit :=
  let* lg := load p in zap_log (Logger_ lg) zapcore.InfoLevel msg.

(** *** [init] *)

Definition bootstrap_EncoderConfig : zapcore.EncoderConfig :=
  {| zapcore.MessageKey := "M"; zapcore.LevelKey := "L";
     zapcore.TimeKey := "T"; zapcore.NameKey := "N";
     zapcore.CallerKey := "C"; zapcore.FunctionKey := "";
     zapcore.StacktraceKey := "S";
     zapcore.LineEnding := zapcore.DefaultLineEnding;
     zapcore.EncodeLevel := Some zapcore.CapitalColorLevelEncoder;
     zapcore.EncodeTime := Some timeEncoder;
     zapcore.EncodeDuration := Some zapcore.StringDurationEncoder;
     zapcore.EncodeCaller := Some zapcore.ShortCallerEncoder |}.

(** The package-level variables after [init()]. *)
Definition init : Globals :=
  let core :=
    zapcore.NewCore (zapcore.NewConsoleEncoder bootstrap_EncoderConfig)
                    zapcore.Stdout (zapcore.AtLevel zapcore.DebugLevel) in
  let logger := zap.New core in
  {| l := None; fileWs := zapcore.nil_WriteSyncer;
     Debug := {| recv := Some logger; at_level := zapcore.DebugLevel |};
     Info := {| recv := Some logger; at_level := zapcore.InfoLevel |};
     Warn := {| recv := Some logger; at_level := zapcore.WarnLevel |};
     Error := {| recv := Some logger; at_level := zapcore.ErrorLevel |};
     loggers := []; rotators := []; written := [] |}.

(* ===================================================================== *)
(** ** Package [log]: [NewLogger] and what it calls                       *)
(* ===================================================================== *)

(** The name computed by the closure [f] of [setSyncers] for [fN]. *)
Definition fileName (env : Env) (o : Options) (fN : string) : string :=
  let fileName := LogFileDir o +:+ sp env +:+ AppName o +:+ "-" +:+ fN in
  if Nat.eqb (String.length fN) (String.length ".log")
  then LogFileDir o +:+ sp env +:+ AppName o +:+ fN
  else fileName.

(** The [lumberjack.Logger] literal in the closure [f] of
    [setSyncers]. *)
Definition rotator_of (env : Env) (o : Options) (fN : string)
  : lumberjack.Logger :=
  {| lumberjack.Filename := fileName env o fN;
     lumberjack.MaxSize := MaxSize o;
     lumberjack.MaxBackups := MaxBackups o;
     lumberjack.MaxAge := MaxAge o;
     lumberjack.Compress := true;
     lumberjack.LocalTime := true |}.

(** [func (l *Logger) setSyncers()] *)
Definition setSyncers (env : Env) (p : nat) : M unit :=
  let f := fun fN : string =>
    let* o := load_Opts p in
    let* addr := new_rotator (rotator_of env o fN) in
    ret (zapcore.Lumberjack addr) in
  let* o := load_Opts p in
  let* ws := f (FileName o) in
  set_fileWs ws.

(** [func (l *Logger) cores() zap.Option] *)
Definition cores (p : nat) : M zap.Option :=
  let* lg := load p in
  let fileEncoder :=
    zapcore.NewJSONEncoder (zap.EncoderConfig (zapConfig lg)) in
  let encoderConfig := zap.NewDevelopmentEncoderConfig in
  let encoderConfig := zapcore.set_EncodeTime timeEncoder encoderConfig in
  let encoderConfig :=
    zapcore.set_EncodeLevel zapcore.CapitalColorLevelEncoder encoderConfig in
  let consoleEncoder := zapcore.NewConsoleEncoder encoderConfig in
  let filePriority := zapcore.LevelEnablerFunc p in
  let* g := get in
  let cores := [zapcore.NewCore fileEncoder (fileWs g) filePriority] in
  let* o := load_Opts p in
  let cores :=
    if Development o
    then (cores ++ [zapcore.NewCore consoleEncoder consoleWs filePriority])%list
    else cores in
  ret (zap.WrapCore (fun c => zapcore.NewTee cores)).

(** [func (l *Logger) init()] *)
Definition Logger_init (env : Env) (p : nat) : M unit :=
  setSyncers env p >>
  let* opt := cores p in
  let* lg := load p in
  match zap.Build (denied env) p (zapConfig lg) [opt] with
  | inr err => modify p (set_Logger_ None) >> panic err
  | inl z => modify p (set_Logger_ (Some z))
  end.

(** [l.zapConfig.Level.SetLevel(lvl)]: a store through the pointer of the
    [AtomicLevel]. *)
Definition AtomicLevel_SetLevel (lvl : zapcore.Level) (c : zap.Config)
  : option zap.Config :=
  match zap.Level c with
  | Some _ => Some (zap.set_Level lvl c)
  | None => None
  end.

Definition default_Options : Options :=
  {| LogFileDir := ""; AppName := "app"; FileName := ".log";
     ErrorFileName := ""; WarnFileName := ""; InfoFileName := "";
     DebugFileName := ""; Level := zapcore.DebugLevel; MaxSize := 100;
     MaxBackups := 60; MaxAge := 30; Development := false;
     Config := zap.zero_Config; Merge := false |}.

(** The statements of [NewLogger] between the test of [inited] and the
    call of [l.init()], on the fields of the fresh [Logger]: the options
    it ends with and its zap configuration ([None] when the store through
    a nil [AtomicLevel] panics). *)
Definition configure (env : Env) (opt : list Option)
  : Options * option zap.Config :=
  let Opts := default_Options in
  let Opts :=
    if String.eqb (LogFileDir Opts) ""
    then
      let Opts := WithLogFileDir (cwd env) Opts in
      WithLogFileDir (LogFileDir Opts +:+ sp env +:+ "logs" +:+ sp env) Opts
    else Opts in
  let zapConfig :=
    if Development Opts
    then
      let c := zap.NewDevelopmentConfig in
      zap.set_EncoderConfig
        (zapcore.set_EncodeTime timeEncoder (zap.EncoderConfig c)) c
    else
      let c := zap.NewProductionConfig in
      zap.set_EncoderConfig
        (zapcore.set_EncodeTime timeEncoder (zap.EncoderConfig c)) c in
  let zapConfig :=
    if Nat.eqb (length (zap.OutputPaths (Config Opts))) 0
    then zap.set_OutputPaths ["stdout"] zapConfig
    else zapConfig in
  let zapConfig :=
    if Nat.eqb (length (zap.ErrorOutputPaths (Config Opts))) 0
    then zap.set_OutputPaths ["stderr"] zapConfig
    else zapConfig in
  let Opts := fold_left (fun o fn => fn o) opt Opts in
  let zapConfig := zap.set_DisableStacktrace true zapConfig in
  (Opts, AtomicLevel_SetLevel (Level Opts) zapConfig).

(** [func NewLogger(opt ...Option) *zap.Logger] *)
Definition NewLogger (env : Env) (opt : list Option)
  : M (option zap.Logger) :=
  let* p := new_Logger in
  set_l (Some p) >>
  let* lg := load p in
  if inited lg
  then Logger_Info p "[NewLogger] logger Inited" >> ret None
  else
    match configure env opt with
    | (o, None) =>
        modify p (set_Opts (Some o)) >> panic nil_dereference
    | (o, Some c) =>
        modify p (set_Opts (Some o)) >>
        modify p (set_zapConfig c) >>
        Logger_init env p >>
        modify p (set_inited true) >>
        Logger_Info p "[NewLogger] success" >>
        let* lg := load p in
        rebind {| recv := Logger_ lg; at_level := zapcore.DebugLevel |}
               {| recv := Logger_ lg; at_level := zapcore.InfoLevel |}
               {| recv := Logger_ lg; at_level := zapcore.WarnLevel |}
               {| recv := Logger_ lg; at_level := zapcore.ErrorLevel |} >>
        ret (Logger_ lg)
    end.

(** [func SetLevel(level zapcore.Level)] *)
Definition SetLevel (level : zapcore.Level) : M unit :=
  let* g := get in
  match l g with
  | None => ret tt
  | Some p =>
      let* o := load_Opts p in
      modify p (set_Opts (Some (WithLevel level o))) >>
      let* o := load_Opts p in
      let* lg := load p in
      match AtomicLevel_SetLevel (Level o) (zapConfig lg) with
      | None => panic nil_dereference
      | Some c =>
          modify p (set_zapConfig c) >>
          Logger_Info p "[SetLevel] success"
      end
  end.

(** [func Sync()]; flushing leaves the model as it is. *)
Definition Sync : M unit :=
  let* g := get in
  match l g with
  | None => ret tt
  | Some p =>
      let* lg := load p in
      match Logger_ lg with
      | None => panic nil_dereference
      | Some _ => ret tt
      end
  end.

(** The states of the package-level variables after calls that have all
    returned: the state after [init()], and the state after a call of an
    exported function, of an entry point, or of a method of a logger that
    was handed out, from such a state.  The state a [NewLogger] leaves
    when an option stops it with a panic ([l] set, [l.Logger] nil,
    [inited] false) is not one of them. *)
Inductive reachable (env : Env) : Globals -> Prop :=
| reach_init : reachable env init
| reach_NewLogger g opt :
    reachable env g -> reachable env (snd (NewLogger env opt g))
| reach_SetLevel g lvl :
    reachable env g -> reachable env (snd (SetLevel lvl g))
| reach_Sync g :
    reachable env g -> reachable env (snd (Sync g))
| reach_Debug g msg :
    reachable env g -> reachable env (snd (call (Debug g) msg g))
| reach_Info g msg :
    reachable env g -> reachable env (snd (call (Info g) msg g))
| reach_Warn g msg :
    reachable env g -> reachable env (snd (call (Warn g) msg g))
| reach_Error g msg :
    reachable env g -> reachable env (snd (call (Error g) msg g))
| reach_zap_log g z lvl msg :
    reachable env g -> reachable env (snd (zap_log (Some z) lvl msg g)).


(* ===================================================================== *)
(** ** Notions the statements are written with                            *)
(* ===================================================================== *)

(** The options [NewLogger] ends with: the defaults, the output directory
    resolved, then the caller's options in order. *)
Definition final_Options (env : Env) (opt : list Option) : Options :=
  fold_left (fun o fn => fn o) opt
    {| LogFileDir := cwd env +:+ sp env +:+ "logs" +:+ sp env;
       AppName := "app"; FileName := ".log";
       ErrorFileName := ""; WarnFileName := ""; InfoFileName := "";
       DebugFileName := ""; Level := zapcore.DebugLevel; MaxSize := 100;
       MaxBackups := 60; MaxAge := 30; Development := false;
       Config := zap.zero_Config; Merge := false |}.

(** The zap configuration [NewLogger] ends with. *)
Definition final_Config (env : Env) (opt : list Option) : zap.Config :=
  {| zap.Level := Some (Level (final_Options env opt));
     zap.Development := false; zap.DisableCaller := false;
     zap.DisableStacktrace := true;
     zap.Sampling := Some {| zap.Initial := 100; zap.Thereafter := 100 |};
     zap.Encoding := "json";
     zap.EncoderConfig :=
       zapcore.set_EncodeTime timeEncoder zap.NewProductionEncoderConfig;
     zap.OutputPaths := ["stderr"]; zap.ErrorOutputPaths := ["stderr"] |}.

(** The fan-out [cores] makes for the [Logger] at [p] once its file
    writer is at [addr]. *)
Definition built_core (env : Env) (opt : list Option) (p addr : nat)
  : zapcore.Core :=
  {| zapcore.enc :=
       zapcore.NewJSONEncoder (zap.EncoderConfig (final_Config env opt));
     zapcore.out := zapcore.Lumberjack addr;
     zapcore.enab := zapcore.LevelEnablerFunc p |}
  :: (if Development (final_Options env opt)
      then [ {| zapcore.enc :=
                  zapcore.NewConsoleEncoder
                    (zapcore.set_EncodeLevel zapcore.CapitalColorLevelEncoder
                       (zapcore.set_EncodeTime timeEncoder
                          zap.NewDevelopmentEncoderConfig));
                zapcore.out := consoleWs;
                zapcore.enab := zapcore.LevelEnablerFunc p |} ]
      else []).

Definition built_Logger (env : Env) (opt : list Option) (g : Globals)
  : zap.Logger :=
  {| zap.core := built_core env opt (length (loggers g))
                            (length (rotators g)) |}.

(** The package-level variables after [NewLogger(opt...)]. *)
Definition after_NewLogger (env : Env) (opt : list Option) (g : Globals)
  : Globals :=
  let o := final_Options env opt in
  let z := built_Logger env opt g in
  {| l := Some (length (loggers g));
     fileWs := zapcore.Lumberjack (length (rotators g));
     Debug := {| recv := Some z; at_level := zapcore.DebugLevel |};
     Info := {| recv := Some z; at_level := zapcore.InfoLevel |};
     Warn := {| recv := Some z; at_level := zapcore.WarnLevel |};
     Error := {| recv := Some z; at_level := zapcore.ErrorLevel |};
     loggers := (loggers g ++
                 [ {| Logger_ := Some z; Opts := Some o;
                      zapConfig := final_Config env opt;
                      inited := true |} ])%list;
     rotators := (rotators g ++ [rotator_of env o (FileName o)])%list;
     written := (written g ++
                 if (zapcore.InfoLevel >=? Level o)%Z
                 then map (write_of zapcore.InfoLevel "[NewLogger] success")
                          (zap.core z)
                 else [])%list |}.

(** The defaults as they are documented, field by field. *)
Definition documented_default (env : Env) (f : Field) : FieldValue :=
  match f with
  | FLogFileDir => VString (cwd env +:+ sp env +:+ "logs" +:+ sp env)
  | FAppName => VString "app"
  | FFileName => VString ".log"
  | FErrorFileName | FWarnFileName | FInfoFileName | FDebugFileName =>
      VString ""
  | FLevel => VInt zapcore.DebugLevel
  | FMaxSize => VInt 100
  | FMaxBackups => VInt 60
  | FMaxAge => VInt 30
  | FDevelopment => VBool false
  | FMerge => VBool false
  end.

Definition apply_all (opt : list Option) (o : Options) : Options :=
  fold_left (fun o fn => fn o) opt o.

(** Agreement on every field but the four per-severity file names. *)
Definition same_but_names (o1 o2 : Options) : Prop :=
  forall f : Field,
    match f with
    | FErrorFileName | FWarnFileName | FInfoFileName | FDebugFileName => True
    | _ => read_field f o1 = read_field f o2
    end.

Definition without_names (calls : list OptionCall) : list OptionCall :=
  List.filter (fun c => negb (per_severity_name c)) calls.

(** The sinks a call of [NewLogger] leaves: the writer cores of the
    logger it returns, the file writer in [fileWs], and the rotating
    writers constructed so far. *)
Definition sinks_of (r : Outcome (option zap.Logger) * Globals)
  : Outcome (option zap.Logger) * zapcore.WriteSyncer
    * list lumberjack.Logger :=
  (fst r, fileWs (snd r), rotators (snd r)).

(** What [cores] returns for a [Logger] with options. *)
Definition cores_of (g : Globals) (p : nat) (lg : Logger) (o : Options)
  : zapcore.Core :=
  {| zapcore.enc :=
       zapcore.NewJSONEncoder (zap.EncoderConfig (zapConfig lg));
     zapcore.out := fileWs g;
     zapcore.enab := zapcore.LevelEnablerFunc p |}
  :: (if Development o
      then [ {| zapcore.enc :=
                  zapcore.NewConsoleEncoder
                    (zapcore.set_EncodeLevel zapcore.CapitalColorLevelEncoder
                       (zapcore.set_EncodeTime timeEncoder
                          zap.NewDevelopmentEncoderConfig));
                zapcore.out := consoleWs;
                zapcore.enab := zapcore.LevelEnablerFunc p |} ]
      else []).

(** The [Logger] at [p] is set up: its options, its zap logger and its
    atomic level are there, the writer cores of the zap logger all ask
    [filePriority] of this very [Logger], and the four entry points are
    methods of that zap logger. *)
Definition initialized (g : Globals) (p : nat) : Prop :=
  exists (lg : Logger) (o : Options) (z : zap.Logger) (M : zapcore.Level),
    loggers g !! p = Some lg /\
    Opts lg = Some o /\
    Logger_ lg = Some z /\
    zap.Level (zapConfig lg) = Some M /\
    Forall (fun io => zapcore.enab io = zapcore.LevelEnablerFunc p)
           (zap.core z) /\
    recv (Debug g) = Some z /\ recv (Info g) = Some z /\
    recv (Warn g) = Some z /\ recv (Error g) = Some z.

(** Either [NewLogger] was never called, or [l] points to a [Logger] that
    is set up. *)
Definition wf (g : Globals) : Prop :=
  match l g with
  | None => True
  | Some p => initialized g p
  end.

(** Two states that differ in the records written only. *)
Definition same_variables (g g' : Globals) : Prop :=
  l g' = l g /\ fileWs g' = fileWs g /\ Debug g' = Debug g /\
  Info g' = Info g /\ Warn g' = Warn g /\ Error g' = Error g /\
  loggers g' = loggers g /\ rotators g' = rotators g.

(** The package-level variables after [SetLevel(level)] on a [Logger]
    that is set up. *)
Definition after_SetLevel (level : zapcore.Level) (p : nat) (lg : Logger)
           (o : Options) (z : zap.Logger) (g : Globals) : Globals :=
  {| l := l g; fileWs := fileWs g; Debug := Debug g; Info := Info g;
     Warn := Warn g; Error := Error g;
     loggers :=
       <[p := {| Logger_ := Some z; Opts := Some (WithLevel level o);
                 zapConfig := zap.set_Level level (zapConfig lg);
                 inited := inited lg |}]> (loggers g);
     rotators := rotators g;
     written := (written g ++
                 if (zapcore.InfoLevel >=? level)%Z
                 then map (write_of zapcore.InfoLevel "[SetLevel] success")
                          (zap.core z)
                 else [])%list |}.

(** *** What [timeEncoder] appends *)

(** [appendInt] of package [time]: the digits of [x], padded with zeros
    to [width] digits, "-" in front of a negative number. *)
Definition appendInt (x : Z) (width : nat) : string :=
  let digits := pretty (Z.abs_N x) in
  (if (x <? 0)%Z then "-" else "")
    +:+ fmt.zeros (width - String.length digits)%nat +:+ digits.

(** [t.Format("2006-01-02 15:04:05.000")], the string [timeEncoder]
    appends, for a time whose nanosecond within the second is [nsec]: the
    fraction is the first three of the nine digits of [nsec]. *)
Definition timeEncoder_string (t : time.Time) (nsec : Z) : string :=
  appendInt (time.Year t) 4 +:+ "-" +:+ appendInt (time.Month t) 2
    +:+ "-" +:+ appendInt (time.Day t) 2 +:+ " "
    +:+ appendInt (time.Hour t) 2 +:+ ":" +:+ appendInt (time.Minute t) 2
    +:+ ":" +:+ appendInt (time.Second t) 2
    +:+ "." +:+ appendInt (nsec / 1000000) 3.

(** A reading of the wall clock: calendar fields in their ranges, the
    year of four digits at most. *)
Definition wall_clock (t : time.Time) (nsec : Z) : Prop :=
  0 <= time.Year t <= 9999 /\ 1 <= time.Month t <= 12 /\
  1 <= time.Day t <= 31 /\ 0 <= time.Hour t <= 23 /\
  0 <= time.Minute t <= 59 /\ 0 <= time.Second t <= 59 /\
  0 <= nsec <= 999999999.

(** *** The entry points and the loggers in the store *)

(** The four entry points with the severity each logs at. *)
Definition entry_points (g : Globals) : list (LogOutputFunc * zapcore.Level) :=
  [ (Debug g, zapcore.DebugLevel); (Info g, zapcore.InfoLevel);
    (Warn g, zapcore.WarnLevel); (Error g, zapcore.ErrorLevel) ].

(** The one record the bootstrap logger of [init] writes for a call. *)
Definition bootstrap_write (S : zapcore.Level) (msg : string) : Write :=
  {| w_out := zapcore.Stdout;
     w_enc := zapcore.NewConsoleEncoder bootstrap_EncoderConfig;
     w_level := S; w_msg := msg |}.

(** A [Logger] as [NewLogger] leaves it and [SetLevel] keeps it: set up,
    its atomic level equal to the level in its options, stack traces off,
    the Production preset writing to "stderr". *)
Definition in_sync (lg : Logger) : Prop :=
  exists (o : Options) (z : zap.Logger),
    Opts lg = Some o /\ Logger_ lg = Some z /\ inited lg = true /\
    zap.Level (zapConfig lg) = Some (Level o) /\
    zap.DisableStacktrace (zapConfig lg) = true /\
    zap.Encoding (zapConfig lg) = "json" /\
    zap.OutputPaths (zapConfig lg) = ["stderr"].

(** The fields the calls of a list write, in order. *)
Definition fields_written (calls : list OptionCall) : list Field :=
  map (fun c => fst (assigns c)) calls.

(* ===================================================================== *)
(** ** Sample inputs                                                      *)
(* ===================================================================== *)

Definition sample_time : time.Time :=
  {| time.Year := 2024; time.Month := 1; time.Day := 2; time.Hour := 10;
     time.Minute := 30; time.Second := 0;
     time.String_ := "2024-01-02 10:30:00 +0000 UTC" |}.

Definition sample_env : Env :=
  {| binDir := "/opt/app"; cwd := "/srv"; sp := "/";
     clock := fun _ => sample_time; denied := fun _ => false;
     stack := "goroutine 1 [running]:" |}.

(** A panic is unwinding, and a dump of the same second is there. *)
Definition sample_world : World :=
  {| fs := {[ "/opt/app/exceptions/2024-01-02/exceptions.10_30_00.log"
              := os.File "earlier dump" ]};
     stdout := ""; ticks := 0;
     panicking := Some (val_iface "&errors.errorString{s:boom}") |}.

(** The package-level variables after
    [NewLogger(WithDevelopment(true), WithLevel(zapcore.WarnLevel))]. *)
Definition sample_globals : Globals :=
  snd (NewLogger sample_env
         [WithDevelopment true; WithLevel zapcore.WarnLevel] init).

Definition sample_calls : list OptionCall :=
  [CallWithAppName "svc"; CallWithMaxAge 7; CallWithAppName "gateway"].

(** The package-level variables after [NewLogger(nil)] called right
    after [init()] and recovered from: the call stops at [fn(l.Opts)]
    with [l] at the fresh [Logger], whose options and preset are assigned
    and whose zap logger is still nil; the entry points are those of
    [init]. *)
Definition sample_stopped : Globals :=
  {| l := Some 0%nat; fileWs := fileWs init;
     Debug := Debug init; Info := Info init;
     Warn := Warn init; Error := Error init;
     loggers :=
       [ {| Logger_ := None;
            Opts := Some (final_Options sample_env []);
            zapConfig :=
              zap.set_OutputPaths ["stderr"]
                (zap.set_EncoderConfig
                   (zapcore.set_EncodeTime timeEncoder
                      (zap.EncoderConfig zap.NewProductionConfig))
                   zap.NewProductionConfig);
            inited := false |} ];
     rotators := []; written := [] |}.

(** A panic is unwinding, and a directory sits where the dump of this
    second would go. *)
Definition sample_world_dir : World :=
  {| fs := {[ "/opt/app/exceptions/2024-01-02/exceptions.10_30_00.log"
              := os.Dir ]};
     stdout := ""; ticks := 0;
     panicking := Some (val_iface "&errors.errorString{s:boom}") |}.

(** Options on three different fields, and the same in another order. *)
Definition sample_calls_a : list OptionCall :=
  [CallWithAppName "svc"; CallWithMaxAge 7; CallWithLevel zapcore.WarnLevel].

Definition sample_calls_b : list OptionCall :=
  [CallWithLevel zapcore.WarnLevel; CallWithAppName "svc"; CallWithMaxAge 7].

(* ===================================================================== *)
(** * Properties of the crash recorder                                    *)
(* ===================================================================== *)

Section StringFacts.

Lemma append_nil_l (t : string) : "" +:+ t = t.
Proof. reflexivity. Qed.

Lemma append_cons (c : ascii) (s t : string) :
  String c s +:+ t = String c (s +:+ t).
Proof. reflexivity. Qed.

Lemma string_app_length (s t : string) :
  String.length (s +:+ t) = (String.length s + String.length t)%nat.
Proof.
  induction s as [|c s IH]; [reflexivity |].
  rewrite append_cons. simpl. now rewrite IH.
Qed.

Lemma string_app_inv_tail (t s1 s2 : string) :
  s1 +:+ t = s2 +:+ t -> s1 = s2.
Proof.
  revert s2. induction s1 as [|c s1 IH]; intros [|c' s2] H.
  - reflexivity.
  - apply (f_equal String.length) in H.
    rewrite !string_app_length in H. simpl in H. lia.
  - apply (f_equal String.length) in H.
    rewrite !string_app_length in H. simpl in H. lia.
  - rewrite !append_cons in H. injection H as -> H.
    f_equal. now apply IH.
Qed.

Lemma string_app_inv_head (s t1 t2 : string) :
  s +:+ t1 = s +:+ t2 -> t1 = t2.
Proof. apply (inj (String.append s)). Qed.

Lemma string_app_assoc (s t u : string) :
  (s +:+ t) +:+ u = s +:+ t +:+ u.
Proof.
  induction s as [|c s IH]; [reflexivity |].
  rewrite !append_cons. now rewrite IH.
Qed.

End StringFacts.

(** The probed names are pairwise distinct. *)
Lemma candidate_inj (dir filename : string) (m n : Z) :
  dir +:+ filename +:+ "_" +:+ fmt.d m +:+ ".log"
  = dir +:+ filename +:+ "_" +:+ fmt.d n +:+ ".log" ->
  m = n.
Proof.
  intros H.
  apply string_app_inv_head, string_app_inv_head in H.
  apply (string_app_inv_head "_") in H.
  apply string_app_inv_tail in H.
  unfold fmt.d in H. now apply (inj pretty) in H.
Qed.

Lemma wrap_int_small (z : Z) : int_min <= z <= int_max -> wrap_int z = z.
Proof.
  unfold wrap_int, int_min, int_max. intros H.
  rewrite Z.mod_small by lia. lia.
Qed.

(** Making directories neither makes nor removes a regular file. *)
Lemma isFileExist_mkdirs (d : string -> bool) (ps : list string) :
  forall (f : gmap string os.Node) (fn : string),
    isFileExist (os.mkdirs d f ps) fn = isFileExist f fn.
Proof.
  induction ps as [|p ps IH]; intros f fn; simpl; [reflexivity |].
  destruct (f !! p) as [[data|]|] eqn:Hp; [reflexivity | apply IH |].
  destruct (d p); [reflexivity |].
  rewrite IH. unfold isFileExist, os.Stat.
  destruct (decide (p = fn)) as [->|Hne].
  - rewrite lookup_insert_eq, Hp. reflexivity.
  - now rewrite lookup_insert_ne.
Qed.

Lemma isFileExist_MkdirAll (d : string -> bool) (f : gmap string os.Node)
      (path fn : string) :
  isFileExist (os.MkdirAll d f path) fn = isFileExist f fn.
Proof. apply isFileExist_mkdirs. Qed.

Lemma isFileExist_dom (f : gmap string os.Node) (fn : string) :
  isFileExist f fn = true -> fn ∈ dom f.
Proof.
  unfold isFileExist, os.Stat. intros H. apply elem_of_dom.
  destruct (f !! fn) as [n|]; [eauto | discriminate].
Qed.

(** A directory is not taken for a file. *)
Lemma isFileExist_Dir (f : gmap string os.Node) (fn : string) :
  f !! fn = Some os.Dir -> isFileExist f fn = false.
Proof. unfold isFileExist, os.Stat. now intros ->. Qed.

Section Probe.

Variables (f : gmap string os.Node) (dir filename : string).

Let cand (n : Z) : string :=
  dir +:+ filename +:+ "_" +:+ fmt.d n +:+ ".log".

(** With as many probes as needed, the loop stops at the first
    counter whose name is free. *)
Lemma probe_stops (k : nat) :
  forall (n : Z) (fuel : nat),
    1 <= n -> n + Z.of_nat k <= int_max ->
    (forall m, n <= m < n + Z.of_nat k -> isFileExist f (cand m) = true) ->
    isFileExist f (cand (n + Z.of_nat k)) = false ->
    (k < fuel)%nat ->
    probe fuel f dir filename n = Some (cand (n + Z.of_nat k)).
Proof.
  induction k as [|k IH]; intros n fuel Hn Hmax Hall Hfree Hfuel;
    (destruct fuel as [|fuel]; [lia |]); simpl.
  - rewrite Z.add_0_r in Hfree. fold (cand n). rewrite Hfree. simpl.
    now rewrite Z.add_0_r.
  - fold (cand n). rewrite (Hall n) by lia. simpl.
    unfold int_add. rewrite wrap_int_small
      by (unfold int_min, int_max in *; lia).
    rewrite (IH (n + 1) fuel); try lia.
    + f_equal. f_equal. lia.
    + intros m Hm. apply Hall. lia.
    + now replace (n + 1 + Z.of_nat k) with (n + Z.of_nat (S k)) by lia.
Qed.

(** Some name among the first [size f + 1] is free: the names are
    distinct and [f] has only [size f] entries. *)
Lemma some_candidate_free :
  exists k : nat, (k <= size f)%nat /\
            isFileExist f (cand (1 + Z.of_nat k)) = false.
Proof.
  destruct (decide (Forall (fun k : nat =>
              isFileExist f (cand (1 + Z.of_nat k)) = true)
              (seq 0 (S (size f))))) as [Hall|Hnot].
  - exfalso.
    set (names := (fun k : nat => cand (1 + Z.of_nat k)) <$> seq 0 (S (size f))).
    assert (Hnd : NoDup names).
    { apply NoDup_fmap_2_strong; [| apply NoDup_seq].
      intros x y _ _ Hxy. apply candidate_inj in Hxy. lia. }
    assert (Hsub : list_to_set (C := gset string) names ⊆ dom f).
    { intros s Hs. apply elem_of_list_to_set in Hs.
      apply list_elem_of_fmap in Hs as (k & -> & Hk).
      apply isFileExist_dom.
      rewrite Forall_forall in Hall. now apply Hall. }
    apply subseteq_size in Hsub.
    rewrite size_list_to_set, size_dom in Hsub by exact Hnd.
    unfold names in Hsub. rewrite length_fmap, length_seq in Hsub. lia.
  - apply not_Forall_Exists in Hnot; [| intros k; apply _].
    apply Exists_exists in Hnot as (k & Hk & Hfree).
    apply elem_of_seq in Hk. exists k. split; [lia |].
    now apply not_true_is_false.
Qed.

(** The first free name. *)
Lemma first_candidate_free :
  exists k : nat, (k <= size f)%nat /\
    isFileExist f (cand (1 + Z.of_nat k)) = false /\
    forall j : nat, (j < k)%nat ->
               isFileExist f (cand (1 + Z.of_nat j)) = true.
Proof.
  destruct some_candidate_free as (k0 & Hk0 & Hfree0).
  revert Hk0 Hfree0.
  induction k0 as [k0 IH] using lt_wf_ind. intros Hk0 Hfree0.
  destruct (decide (Forall (fun j : nat =>
              isFileExist f (cand (1 + Z.of_nat j)) = true) (seq 0 k0)))
    as [Hall|Hnot].
  - exists k0. repeat split; try assumption.
    intros j Hj. rewrite Forall_forall in Hall. apply Hall.
    apply elem_of_seq. lia.
  - apply not_Forall_Exists in Hnot; [| intros k; apply _].
    apply Exists_exists in Hnot as (k & Hk & Hfree).
    apply elem_of_seq in Hk.
    apply (IH k); [lia | lia |].
    now apply not_true_is_false.
Qed.

End Probe.

(** [%0<w>d] pads, and never cuts: the result is as wide as [w] or as the
    plain rendering, whichever is longer. *)
Lemma d0_width (w : nat) (z : Z) :
  String.length (fmt.d0 w z) = Nat.max w (String.length (fmt.d z)).
Proof.
  assert (Hz : forall n, String.length (fmt.zeros n) = n)
    by (induction n as [|n IH]; simpl; congruence).
  unfold fmt.d0, fmt.d. destruct z as [|p|p]; cbv zeta.
  - change (0 <? 0)%Z with false. cbv iota.
    rewrite string_app_length, Hz. change (pretty 0%Z) with "0".
    change (pretty (Z.abs_N 0)) with "0". simpl. lia.
  - change (Z.pos p <? 0)%Z with false. cbv iota.
    rewrite string_app_length, Hz.
    change (pretty (Z.pos p)) with (pretty (N.pos p)).
    change (Z.abs_N (Z.pos p)) with (N.pos p). lia.
  - change (Z.neg p <? 0)%Z with true. cbv iota.
    rewrite append_cons, append_nil_l. simpl String.length.
    rewrite string_app_length, Hz.
    change (pretty (Z.neg p)) with ("-" +:+ pretty (N.pos p)).
    change (Z.abs_N (Z.neg p)) with (N.pos p).
    rewrite ?append_cons, ?append_nil_l. simpl String.length.
    rewrite ?append_nil_l.
    change (@pretty positive _ p) with (pretty (N.pos p)). lia.
Qed.

Example d0_two_digits :
  fmt.d0 2 7 = "07" /\ fmt.d0 2 30 = "30" /\ fmt.d0 4 987 = "0987".
Proof. repeat split; reflexivity. Qed.

Lemma newDumpFile_unfold (fuel : nat) (env : Env) (w : World) :
  newDumpFile fuel env w =
  let now := clock env (ticks w) in
  let w1 :=
    {| fs := os.MkdirAll (denied env) (fs w) (dump_dir env now);
       stdout := stdout w; ticks := S (ticks w);
       panicking := panicking w |} in
  let fn := dump_dir env now +:+ dump_filename now +:+ ".log" in
  if negb (isFileExist (fs w) fn) then Some (fn, w1)
  else match probe fuel (fs w1) (dump_dir env now) (dump_filename now) 1 with
       | Some fn => Some (fn, w1)
       | None => None
       end.
Proof.
  unfold newDumpFile, time_Now, set_fs. cbv zeta. simpl fs.
  now rewrite isFileExist_MkdirAll.
Qed.

(** The loop of [newDumpFile] returns the first free numbered name when
    the file system has fewer entries than [int] has positive values. *)
Lemma probe_first_free (env : Env) (f f' : gmap string os.Node)
      (dir filename : string) (fuel : nat) :
  (forall fn, isFileExist f' fn = isFileExist f fn) ->
  Z.of_nat (size f) < int_max ->
  (size f < fuel)%nat ->
  exists n : Z,
    0 < n /\
    probe fuel f' dir filename 1
    = Some (dir +:+ filename +:+ "_" +:+ fmt.d n +:+ ".log") /\
    isFileExist f (dir +:+ filename +:+ "_" +:+ fmt.d n +:+ ".log") = false /\
    forall m : Z, 0 < m < n ->
      isFileExist f (dir +:+ filename +:+ "_" +:+ fmt.d m +:+ ".log") = true.
Proof.
  intros Hsame Hsize Hfuel.
  destruct (first_candidate_free f dir filename) as (k & Hk & Hfree & Hbelow).
  exists (1 + Z.of_nat k). split; [lia |]. split; [| split].
  - apply probe_stops; try lia.
    + intros m Hm. rewrite Hsame.
      replace m with (1 + Z.of_nat (Z.to_nat (m - 1))) by lia.
      apply Hbelow. lia.
    + now rewrite Hsame.
  - exact Hfree.
  - intros m Hm.
    replace m with (1 + Z.of_nat (Z.to_nat (m - 1))) by lia.
    apply Hbelow. lia.
Qed.

(** With enough probes [newDumpFile] returns, and all it leaves behind
    are the directories it made and one reading of the clock. *)
Lemma newDumpFile_total (env : Env) (w : World) (fuel : nat) :
  Z.of_nat (size (fs w)) < int_max ->
  (size (fs w) < fuel)%nat ->
  exists path : string,
    newDumpFile fuel env w
    = Some (path,
            {| fs := os.MkdirAll (denied env) (fs w)
                       (dump_dir env (clock env (ticks w)));
               stdout := stdout w; ticks := S (ticks w);
               panicking := panicking w |}).
Proof.
  intros Hsize Hfuel. rewrite newDumpFile_unfold. cbv zeta.
  destruct (negb _); [eexists; reflexivity |].
  destruct (probe_first_free env (fs w)
              (os.MkdirAll (denied env) (fs w)
                 (dump_dir env (clock env (ticks w))))
              (dump_dir env (clock env (ticks w)))
              (dump_filename (clock env (ticks w))) fuel)
    as (n & _ & Hprobe & _); try assumption.
  { intros fn. apply isFileExist_MkdirAll. }
  simpl fs. rewrite Hprobe. eexists. reflexivity.
Qed.


(** [CatchException] outside a panic does nothing. *)
Lemma CatchException_idle (fuel : nat) (env : Env) (w : World) :
  panicking w = None -> CatchException fuel env w = Some w.
Proof.
  intros H. unfold CatchException, recover. rewrite H.
  destruct w; simpl in *. now subst.
Qed.

(** C7. Whatever value is propagating, [CatchException] returns and the
    goroutine is no longer panicking afterwards; when the dump file
    cannot be opened, all that is left of the call is the open error on
    standard output (and the directories made on the way): nothing is
    written to a file. *)
Theorem CatchException_never_reraises (env : Env) (w : World) (fuel : nat)
        (v : iface) :
  panicking w = Some v ->
  Z.of_nat (size (fs w)) < int_max ->
  (size (fs w) < fuel)%nat ->
  exists w' : World,
    CatchException fuel env w = Some w' /\
    panicking w' = None /\
    forall (gostring fn : string) (w1 : World) (err2 : string),
      v = val_iface gostring ->
      newDumpFile fuel env (snd (recover w)) = Some (fn, w1) ->
      os.OpenFile (denied env) (fs w1) fn = inr err2 ->
      w' = Println err2 w1 /\
      fs w' = os.MkdirAll (denied env) (fs w)
                (dump_dir env (clock env (ticks w))) /\
      stdout w' = stdout w +:+ err2 +:+ nl.
Proof.
  intros Hv Hsize Hfuel.
  unfold CatchException. unfold recover at 1. rewrite Hv.
  destruct v as [|gostring].
  - eexists. split; [reflexivity |]. split; [reflexivity |].
    intros ? ? ? ? Hnil. discriminate Hnil.
  - set (wr := {| fs := fs w; stdout := stdout w; ticks := ticks w;
                  panicking := None |}).
    assert (Hwr : snd (recover w) = wr) by reflexivity.
    destruct (newDumpFile_total env wr fuel Hsize Hfuel) as (path & Hdump).
    simpl in Hdump. rewrite Hdump.
    set (w1 := {| fs := os.MkdirAll (denied env) (fs w)
                          (dump_dir env (clock env (ticks w)));
                  stdout := stdout w; ticks := S (ticks w);
                  panicking := None |}) in *.
    destruct (os.OpenFile (denied env) (fs w1) path) as [f|e] eqn:Hopen.
    + eexists. split; [reflexivity |]. split; [reflexivity |].
      intros g fn w2 err2 _ Hd Ho. rewrite Hwr, Hdump in Hd.
      injection Hd as <- <-. congruence.
    + eexists. split; [reflexivity |]. split; [reflexivity |].
      intros g fn w2 err2 _ Hd Ho. rewrite Hwr, Hdump in Hd.
      injection Hd as <- <-. rewrite Hopen in Ho. injection Ho as <-.
      split; [reflexivity |]. split; reflexivity.
Qed.

(* ===================================================================== *)
(** * Properties of the logger                                            *)
(* ===================================================================== *)

(** C3. The file sink is named [outputDir + separator + appName + "-" +
    suffix], except for a suffix of exactly four bytes (the length of
    ".log"), where the hyphen is left out; the test is on the length, so
    a four-byte suffix other than ".log" loses the hyphen too. *)
Theorem fileName_by_length (env : Env) (o : Options) (fN : string) :
  lumberjack.Filename (rotator_of env o fN) = fileName env o fN /\
  (String.length fN <> 4%nat ->
   fileName env o fN = LogFileDir o +:+ sp env +:+ AppName o +:+ "-" +:+ fN) /\
  (String.length fN = 4%nat ->
   fileName env o fN = LogFileDir o +:+ sp env +:+ AppName o +:+ fN) /\
  fileName env o "abcd" = LogFileDir o +:+ sp env +:+ AppName o +:+ "abcd".
Proof.
  split; [reflexivity |]. unfold fileName. simpl String.length.
  split; [| split].
  - intros H. apply Nat.eqb_neq in H. now rewrite H.
  - intros H. apply Nat.eqb_eq in H. now rewrite H.
  - reflexivity.
Qed.

Section Store.

Context {A : Type}.

Lemma lookup_snoc (xs : list A) (x : A) :
  (xs ++ [x])%list !! length xs = Some x.
Proof. apply list_lookup_middle. reflexivity. Qed.

Lemma insert_snoc (xs : list A) (x y : A) :
  <[length xs := y]> (xs ++ [x])%list = (xs ++ [y])%list.
Proof.
  rewrite insert_app_r_alt by lia.
  now rewrite Nat.sub_diag.
Qed.

End Store.

Lemma configure_eq (env : Env) (opt : list Option) :
  configure env opt = (final_Options env opt, Some (final_Config env opt)).
Proof. reflexivity. Qed.

Lemma NewLogger_eq (env : Env) (opt : list Option) (g : Globals) :
  NewLogger env opt g
  = (Returned (Some (built_Logger env opt g)), after_NewLogger env opt g).
Proof.
  destruct g as [l0 ws d i w e ls rs wr].
  unfold NewLogger. rewrite configure_eq.
  unfold after_NewLogger, built_Logger, built_core, final_Config.
  remember (final_Options env opt) as o eqn:Ho.
  unfold Logger_init, setSyncers, cores, Logger_Info, zap_log, load_Opts,
    new_rotator, set_fileWs, rebind, emit, get,
    new_Logger, set_l, modify, load, store, set_loggers, bind, ret, panic.
  cbn.
  repeat (rewrite ?lookup_snoc, ?insert_snoc; cbn).
  destruct (Development o);
    unfold Check, Enabled, filePriority, zapConfig_Level, load, bind, ret;
    cbn; repeat (rewrite ?lookup_snoc; cbn);
    destruct (zapcore.InfoLevel >=? Level o)%Z; reflexivity.
Qed.

(** What a call of [NewLogger] leaves behind, read off [after_NewLogger]. *)
Lemma NewLogger_current (env : Env) (opt : list Option) (g : Globals) :
  l (after_NewLogger env opt g) = Some (length (loggers g)) /\
  loggers (after_NewLogger env opt g) !! length (loggers g)
  = Some {| Logger_ := Some (built_Logger env opt g);
            Opts := Some (final_Options env opt);
            zapConfig := final_Config env opt;
            inited := true |}.
Proof. split; [reflexivity |]. simpl. apply lookup_snoc. Qed.

(** [NewLogger] writes at most its "success" record. *)
Lemma after_NewLogger_written (env : Env) (opt : list Option) (g : Globals) :
  exists ws : list Write,
    written (after_NewLogger env opt g) = (written g ++ ws)%list /\
    Forall (fun w => w_msg w = "[NewLogger] success") ws.
Proof.
  eexists. split; [reflexivity |].
  destruct (_ >=? _)%Z; [| constructor].
  apply Forall_forall. intros w Hw.
  apply list_elem_of_In, in_map_iff in Hw as (io & <- & _). reflexivity.
Qed.

(** C10. Whatever the options, the zap configuration [NewLogger] builds
    has [OutputPaths = ["stderr"]]: [ErrorOutputPaths] of the fresh
    options is empty, and the branch on it stores into [OutputPaths],
    over the ["stdout"] of the branch before. *)
Theorem OutputPaths_is_stderr (env : Env) (opt : list Option) (g : Globals) :
  zap.OutputPaths (Config default_Options) = [] /\
  zap.ErrorOutputPaths (Config default_Options) = [] /\
  exists (z : zap.Logger) (g' : Globals) (p : nat) (lg : Logger),
    NewLogger env opt g = (Returned (Some z), g') /\
    l g' = Some p /\
    loggers g' !! p = Some lg /\
    zap.OutputPaths (zapConfig lg) = ["stderr"].
Proof.
  split; [reflexivity |]. split; [reflexivity |].
  destruct (NewLogger_current env opt g) as (Hl & Hlg).
  eexists _, _, _, _. rewrite NewLogger_eq.
  split; [reflexivity |]. split; [exact Hl |]. split; [exact Hlg |].
  reflexivity.
Qed.

(** C1, on the code: a second call of [NewLogger] finds a fresh [Logger]
    (the assignment [l = &Logger{}] precedes the test of [inited]), so it
    constructs a second file writer, returns a logger rather than nil,
    and writes no "logger Inited" record. *)
Theorem NewLogger_twice_constructs_twice
        (env : Env) (opt1 opt2 : list Option) (g : Globals) :
  let g1 := snd (NewLogger env opt1 g) in
  let r2 := NewLogger env opt2 g1 in
  length (rotators (snd r2)) = S (S (length (rotators g))) /\
  (exists z : zap.Logger, fst r2 = Returned (Some z)) /\
  l g1 <> l (snd r2) /\
  Forall (fun w => w_msg w <> "[NewLogger] logger Inited")
         (drop (length (written g1)) (written (snd r2))).
Proof.
  cbv zeta. rewrite !NewLogger_eq. simpl snd. simpl fst.
  split; [| split; [| split]].
  - simpl. rewrite !length_app. simpl. lia.
  - eexists. reflexivity.
  - simpl. rewrite length_app. simpl. intros H. injection H as H. lia.
  - destruct (after_NewLogger_written env opt2 (after_NewLogger env opt1 g))
      as (ws & -> & Hws).
    rewrite drop_app_length.
    eapply Forall_impl; [exact Hws |]. intros w ->. discriminate.
Qed.

Example NewLogger_twice_from_init (env : Env) :
  let r1 := NewLogger env [] init in
  let r2 := NewLogger env [] (snd r1) in
  length (rotators (snd r1)) = 1%nat /\
  length (rotators (snd r2)) = 2%nat /\
  fst r2 <> Returned None.
Proof.
  cbv zeta. rewrite !NewLogger_eq. simpl.
  repeat split. discriminate.
Qed.

(** C5, on the code: the preset is chosen before the options are
    applied, when [Development] still has its zero value, so the
    configuration is always the Production one (with [timeEncoder] as
    its time encoder), also when the options select Development mode. *)
Theorem Development_mode_keeps_Production_preset (env : Env) (g : Globals) :
  exists (z : zap.Logger) (g' : Globals) (p : nat) (lg : Logger)
         (o : Options),
    NewLogger env [WithDevelopment true] g = (Returned (Some z), g') /\
    l g' = Some p /\
    loggers g' !! p = Some lg /\
    Opts lg = Some o /\
    Development o = true /\
    zap.Encoding (zapConfig lg) = zap.Encoding zap.NewProductionConfig /\
    zap.EncoderConfig (zapConfig lg)
    = zapcore.set_EncodeTime timeEncoder
        (zap.EncoderConfig zap.NewProductionConfig) /\
    zap.EncoderConfig (zapConfig lg)
    <> zapcore.set_EncodeTime timeEncoder
         (zap.EncoderConfig zap.NewDevelopmentConfig).
Proof.
  destruct (NewLogger_current env [WithDevelopment true] g) as (Hl & Hlg).
  eexists _, _, _, _, _. rewrite NewLogger_eq.
  split; [reflexivity |]. split; [exact Hl |]. split; [exact Hlg |].
  split; [reflexivity |]. repeat split. discriminate.
Qed.

(** The preset does not depend on the options at all. *)
Lemma preset_ignores_options (env : Env) (opt : list Option) :
  zap.set_Level zapcore.InfoLevel (final_Config env opt)
  = zap.set_DisableStacktrace true
      (zap.set_EncoderConfig
         (zapcore.set_EncodeTime timeEncoder
            (zap.EncoderConfig zap.NewProductionConfig))
         zap.NewProductionConfig).
Proof. reflexivity. Qed.

(** *** Options: order, last write, defaults *)

Lemma call_writes_its_field (c : OptionCall) (o : Options) :
  read_field (fst (assigns c)) (eval_call c o) = snd (assigns c).
Proof. destruct c; reflexivity. Qed.

Lemma call_keeps_other_fields (c : OptionCall) (f : Field) (o : Options) :
  touches c f = false -> read_field f (eval_call c o) = read_field f o.
Proof. destruct c, f; simpl; intros H; try reflexivity; discriminate H. Qed.

Lemma apply_all_untouched (calls : list OptionCall) (f : Field) :
  forall o : Options,
    (forall c, c ∈ calls -> touches c f = false) ->
    read_field f (apply_all (map eval_call calls) o) = read_field f o.
Proof.
  induction calls as [|c calls IH]; intros o H; [reflexivity |].
  simpl. unfold apply_all in IH. rewrite IH.
  - apply call_keeps_other_fields, H. left.
  - intros c' Hc'. apply H. now right.
Qed.

Lemma apply_all_last_write (pre post : list OptionCall) (c : OptionCall)
      (o : Options) :
  (forall c', c' ∈ post -> touches c' (fst (assigns c)) = false) ->
  read_field (fst (assigns c))
             (apply_all (map eval_call (pre ++ c :: post)%list) o)
  = snd (assigns c).
Proof.
  intros H. unfold apply_all. rewrite map_app, fold_left_app. simpl.
  fold (apply_all (map eval_call post)
          (eval_call c (fold_left (fun o fn => fn o) (map eval_call pre) o))).
  rewrite apply_all_untouched by exact H.
  apply call_writes_its_field.
Qed.

(** The options are applied one after the other, in the order given. *)
Lemma apply_all_in_order (opt : list Option) (fn : Option) (o : Options) :
  apply_all (opt ++ [fn])%list o = fn (apply_all opt o).
Proof. unfold apply_all. now rewrite fold_left_app. Qed.

(** C6. The options [NewLogger] is given are applied in the caller's
    order: a field holds what the last call that writes it assigned, and
    a field no call writes holds its documented default. *)
Theorem options_last_write_wins (env : Env) (g : Globals)
        (calls : list OptionCall) :
  exists (z : zap.Logger) (g' : Globals) (p : nat) (lg : Logger)
         (o : Options),
    NewLogger env (map eval_call calls) g = (Returned (Some z), g') /\
    l g' = Some p /\
    loggers g' !! p = Some lg /\
    Opts lg = Some o /\
    (forall (init_calls : list OptionCall) (c : OptionCall),
       calls = (init_calls ++ [c])%list ->
       o = eval_call c (final_Options env (map eval_call init_calls))) /\
    (forall (pre post : list OptionCall) (c : OptionCall),
       calls = (pre ++ c :: post)%list ->
       (forall c', c' ∈ post -> touches c' (fst (assigns c)) = false) ->
       read_field (fst (assigns c)) o = snd (assigns c)) /\
    (forall f : Field,
       (forall c, c ∈ calls -> touches c f = false) ->
       read_field f o = documented_default env f).
Proof.
  destruct (NewLogger_current env (map eval_call calls) g) as (Hl & Hlg).
  eexists _, _, _, _, _. rewrite NewLogger_eq.
  split; [reflexivity |]. split; [exact Hl |]. split; [exact Hlg |].
  split; [reflexivity |]. split; [| split].
  - intros init_calls c ->. unfold final_Options.
    rewrite map_app. simpl map. now rewrite fold_left_app.
  - intros pre post c -> H. now apply apply_all_last_write.
  - intros f H. unfold final_Options.
    fold (apply_all (map eval_call calls)). rewrite apply_all_untouched by exact H.
    destruct f; reflexivity.
Qed.

(** *** The sinks and the per-severity file names *)

Lemma same_but_names_call_l (c : OptionCall) (o1 o2 : Options) :
  per_severity_name c = true ->
  same_but_names o1 o2 -> same_but_names (eval_call c o1) o2.
Proof.
  intros Hc H f. specialize (H f).
  destruct c; try discriminate Hc; destruct f; exact H.
Qed.

Lemma same_but_names_call (c : OptionCall) (o1 o2 : Options) :
  same_but_names o1 o2 -> same_but_names (eval_call c o1) (eval_call c o2).
Proof.
  intros H f. specialize (H f).
  destruct c, f; simpl in *; try exact I; try exact H; reflexivity.
Qed.

Lemma same_but_names_strip (calls : list OptionCall) :
  forall o1 o2 : Options,
    same_but_names o1 o2 ->
    same_but_names (apply_all (map eval_call calls) o1)
                   (apply_all (map eval_call (without_names calls)) o2).
Proof.
  induction calls as [|c calls IH]; intros o1 o2 H; [exact H |].
  simpl. destruct (per_severity_name c) eqn:Hc; simpl.
  - apply IH. now apply same_but_names_call_l.
  - apply IH. now apply same_but_names_call.
Qed.

Lemma same_but_names_refl (o : Options) : same_but_names o o.
Proof. intros f. now destruct f. Qed.

Lemma same_but_names_sym (o1 o2 : Options) :
  same_but_names o1 o2 -> same_but_names o2 o1.
Proof. intros H f. specialize (H f). now destruct f. Qed.

Lemma same_but_names_trans (o1 o2 o3 : Options) :
  same_but_names o1 o2 -> same_but_names o2 o3 -> same_but_names o1 o3.
Proof.
  intros H1 H2 f. specialize (H1 f). specialize (H2 f).
  destruct f; try exact I; congruence.
Qed.

(** The file writer reads six fields of the options. *)
Lemma rotator_of_depends (env : Env) (o1 o2 : Options) :
  LogFileDir o1 = LogFileDir o2 -> AppName o1 = AppName o2 ->
  FileName o1 = FileName o2 -> MaxSize o1 = MaxSize o2 ->
  MaxBackups o1 = MaxBackups o2 -> MaxAge o1 = MaxAge o2 ->
  rotator_of env o1 (FileName o1) = rotator_of env o2 (FileName o2).
Proof.
  intros Hd Ha Hf Hs Hb Hg. unfold rotator_of, fileName.
  now rewrite Hd, Ha, Hf, Hs, Hb, Hg.
Qed.

(** C9. The file writer is made from [LogFileDir], [AppName],
    [FileName], [MaxSize], [MaxBackups] and [MaxAge] alone, and two
    option lists that are the same once the per-severity file-name
    options are taken out make [NewLogger] construct the same sinks. *)
Theorem sinks_ignore_per_severity_names (env : Env) (g : Globals)
        (calls1 calls2 : list OptionCall) :
  without_names calls1 = without_names calls2 ->
  (forall o1 o2 : Options,
     LogFileDir o1 = LogFileDir o2 -> AppName o1 = AppName o2 ->
     FileName o1 = FileName o2 -> MaxSize o1 = MaxSize o2 ->
     MaxBackups o1 = MaxBackups o2 -> MaxAge o1 = MaxAge o2 ->
     rotator_of env o1 (FileName o1) = rotator_of env o2 (FileName o2)) /\
  sinks_of (NewLogger env (map eval_call calls1) g)
  = sinks_of (NewLogger env (map eval_call calls2) g).
Proof.
  intros Hstrip. split; [apply rotator_of_depends |].
  assert (H : same_but_names (final_Options env (map eval_call calls1))
                             (final_Options env (map eval_call calls2))).
  { unfold final_Options.
    eapply same_but_names_trans.
    - apply (same_but_names_strip calls1), same_but_names_refl.
    - rewrite Hstrip. apply same_but_names_sym.
      apply (same_but_names_strip calls2), same_but_names_refl. }
  rewrite !NewLogger_eq. unfold sinks_of. simpl fst. simpl snd.
  unfold after_NewLogger, built_Logger, built_core, final_Config.
  simpl fileWs. simpl rotators.
  set (o1 := final_Options env (map eval_call calls1)) in *.
  set (o2 := final_Options env (map eval_call calls2)) in *.
  pose proof (H FLogFileDir) as Hd. pose proof (H FAppName) as Ha.
  pose proof (H FFileName) as Hf. pose proof (H FLevel) as Hlv.
  pose proof (H FMaxSize) as Hs. pose proof (H FMaxBackups) as Hb.
  pose proof (H FMaxAge) as Hg. pose proof (H FDevelopment) as Hdev.
  simpl in Hd, Ha, Hf, Hlv, Hs, Hb, Hg, Hdev.
  injection Hd as Hd. injection Ha as Ha. injection Hf as Hf.
  injection Hlv as Hlv. injection Hs as Hs. injection Hb as Hb.
  injection Hg as Hg. injection Hdev as Hdev.
  rewrite (rotator_of_depends env o1 o2) by assumption.
  now rewrite Hlv, Hdev.
Qed.

(** *** The severity filter *)

Lemma filePriority_eq (g : Globals) (p : nat) (lg : Logger)
      (M S : zapcore.Level) :
  loggers g !! p = Some lg ->
  zap.Level (zapConfig lg) = Some M ->
  filePriority p S g = (Returned (S >=? M)%Z, g).
Proof.
  intros Hlg HM.
  unfold filePriority, zapConfig_Level, load, bind, ret.
  now rewrite Hlg, HM.
Qed.

(** Asking an enabler leaves the package-level variables alone. *)
Lemma Enabled_state (en : zapcore.LevelEnabler) (S : zapcore.Level)
      (g : Globals) :
  snd (Enabled en S g) = g.
Proof.
  destruct en as [m|p|p]; simpl; [reflexivity | |];
    unfold filePriority, zapConfig_Level, load, bind, ret, panic;
    destruct (loggers g !! p) as [lg|]; try reflexivity;
    destruct (zap.Level (zapConfig lg)); reflexivity.
Qed.

Lemma Check_state (c : zapcore.Core) (S : zapcore.Level) (g : Globals) :
  snd (Check c S g) = g.
Proof.
  induction c as [|io c IH]; [reflexivity |].
  simpl. unfold bind at 1.
  pose proof (Enabled_state (zapcore.enab io) S g) as He.
  destruct (Enabled (zapcore.enab io) S g) as [[b|v] g1]; simpl in He;
    subst g1; [| reflexivity].
  unfold bind at 1.
  destruct (Check c S g) as [[cs|v] g2]; simpl in IH; subst g2; reflexivity.
Qed.

(** A fan-out whose writer cores all ask [filePriority] of the [Logger]
    at [p] takes a record with all of them or with none. *)
Lemma Check_uniform (g : Globals) (p : nat) (lg : Logger)
      (M S : zapcore.Level) (c : zapcore.Core) :
  loggers g !! p = Some lg ->
  zap.Level (zapConfig lg) = Some M ->
  Forall (fun io => zapcore.enab io = zapcore.LevelEnablerFunc p) c ->
  Check c S g = (Returned (if (S >=? M)%Z then c else []), g).
Proof.
  intros Hlg HM Hall.
  induction Hall as [|io c Hio Hc IH]; simpl.
  - now destruct (S >=? M)%Z.
  - unfold bind at 1. rewrite Hio. simpl Enabled.
    rewrite (filePriority_eq g p lg M S Hlg HM).
    unfold bind at 1. rewrite IH. unfold ret.
    now destruct (S >=? M)%Z.
Qed.

Lemma cores_eq (g : Globals) (p : nat) (lg : Logger) (o : Options) :
  loggers g !! p = Some lg ->
  Opts lg = Some o ->
  exists wrap : zapcore.Core -> zapcore.Core,
    cores p g = (Returned (zap.WrapCore wrap), g) /\
    forall c0, wrap c0 = cores_of g p lg o.
Proof.
  intros Hlg Ho.
  unfold cores, load_Opts, load, get, bind, ret. rewrite Hlg. cbn.
  rewrite Hlg, Ho. eexists. split; [reflexivity |].
  intros c0. unfold cores_of. cbn. now destruct (Development o).
Qed.

Lemma cores_of_enablers (g : Globals) (p : nat) (lg : Logger) (o : Options) :
  Forall (fun io => zapcore.enab io = zapcore.LevelEnablerFunc p)
         (cores_of g p lg o).
Proof.
  unfold cores_of. destruct (Development o); repeat constructor.
Qed.

(** C4. [cores] always attaches the file sink, and the console sink
    when [Development] is set, and gives every sink it attaches the same
    filter, the configured minimum [M] of the [Logger] they are made for:
    a record of severity [S] is written to every attached sink when
    [S >= M], and to none of them otherwise. *)
Theorem severity_filter (g : Globals) (p : nat) (lg : Logger) (o : Options)
        (M S : zapcore.Level) (msg : string) (c0 : zapcore.Core) :
  loggers g !! p = Some lg ->
  Opts lg = Some o ->
  zap.Level (zapConfig lg) = Some M ->
  exists (wrap : zapcore.Core -> zapcore.Core) (delivered : list Write),
    cores p g = (Returned (zap.WrapCore wrap), g) /\
    wrap c0
    = {| zapcore.enc :=
           zapcore.NewJSONEncoder (zap.EncoderConfig (zapConfig lg));
         zapcore.out := fileWs g;
         zapcore.enab := zapcore.LevelEnablerFunc p |}
      :: (if Development o
          then [ {| zapcore.enc :=
                      zapcore.NewConsoleEncoder
                        (zapcore.set_EncodeLevel
                           zapcore.CapitalColorLevelEncoder
                           (zapcore.set_EncodeTime timeEncoder
                              zap.NewDevelopmentEncoderConfig));
                    zapcore.out := consoleWs;
                    zapcore.enab := zapcore.LevelEnablerFunc p |} ]
          else []) /\
    (forall io, io ∈ wrap c0 ->
       Enabled (zapcore.enab io) S g = (Returned (S >=? M)%Z, g)) /\
    zap_log (Some (zap.WithOptions [zap.WrapCore wrap] (zap.New c0))) S msg g
    = emit delivered g /\
    (S >= M -> delivered = map (write_of S msg) (wrap c0)) /\
    (S < M -> delivered = []) /\
    (forall io, io ∈ wrap c0 ->
       (write_of S msg io ∈ delivered <-> S >= M)).
Proof.
  intros Hlg Ho HM.
  destruct (cores_eq g p lg o Hlg Ho) as (wrap & Hcores & Hwrap).
  exists wrap,
    (map (write_of S msg) (if (S >=? M)%Z then wrap c0 else [])).
  split; [exact Hcores |].
  split; [rewrite (Hwrap c0); reflexivity |].
  pose proof (cores_of_enablers g p lg o) as Hen.
  rewrite <- (Hwrap c0) in Hen.
  split; [| split; [| split; [| split]]].
  - intros io Hio. rewrite Forall_forall in Hen.
    rewrite (Hen io Hio). simpl.
    apply (filePriority_eq g p lg M S Hlg HM).
  - unfold zap_log. simpl zap.core. unfold bind.
    now rewrite (Check_uniform g p lg M S (wrap c0) Hlg HM Hen).
  - intros Hge.
    now replace (S >=? M)%Z with true by (symmetry; apply Z.geb_le; lia).
  - intros Hlt. destruct (S >=? M)%Z eqn:Hge; [| reflexivity].
    apply Z.geb_le in Hge. lia.
  - intros io Hio. destruct (S >=? M)%Z eqn:Hge.
    + apply Z.geb_le in Hge. split; [lia |]. intros _.
      apply list_elem_of_In, in_map, list_elem_of_In, Hio.
    + split.
      * intros Hin. now apply elem_of_nil in Hin.
      * intros Hs. apply Z.ge_le, Z.geb_le in Hs. congruence.
Qed.

(** *** [SetLevel] *)

Lemma wf_same_variables (g g' : Globals) :
  same_variables g g' -> wf g -> wf g'.
Proof.
  intros (Hl & _ & Hd & Hi & Hw & He & Hls & _). unfold wf, initialized.
  now rewrite Hl, Hd, Hi, Hw, He, Hls.
Qed.

Lemma zap_log_same_variables (z : option zap.Logger) (S : zapcore.Level)
      (msg : string) (g : Globals) :
  same_variables g (snd (zap_log z S msg g)).
Proof.
  destruct z as [z|]; [| repeat split].
  unfold zap_log, bind.
  pose proof (Check_state (zap.core z) S g) as Hc.
  destruct (Check (zap.core z) S g) as [[cs|v] g1]; simpl in Hc; subst g1;
    repeat split.
Qed.

Lemma built_core_enablers (env : Env) (opt : list Option) (p addr : nat) :
  Forall (fun io => zapcore.enab io = zapcore.LevelEnablerFunc p)
         (built_core env opt p addr).
Proof. unfold built_core. destruct (Development _); repeat constructor. Qed.

Lemma wf_after_NewLogger (env : Env) (opt : list Option) (g : Globals) :
  wf (after_NewLogger env opt g).
Proof.
  unfold wf. destruct (NewLogger_current env opt g) as (-> & Hlg).
  eexists _, _, _, _. split; [exact Hlg |].
  repeat split.
  unfold built_Logger, built_core. simpl.
  destruct (Development _); repeat constructor.
Qed.

Lemma SetLevel_eq (level : zapcore.Level) (g : Globals) (p : nat)
      (lg : Logger) (o : Options) (z : zap.Logger) (M : zapcore.Level) :
  l g = Some p ->
  loggers g !! p = Some lg ->
  Opts lg = Some o ->
  Logger_ lg = Some z ->
  zap.Level (zapConfig lg) = Some M ->
  Forall (fun io => zapcore.enab io = zapcore.LevelEnablerFunc p)
         (zap.core z) ->
  SetLevel level g = (Returned tt, after_SetLevel level p lg o z g).
Proof.
  intros Hl Hlg Ho Hz HM Hen.
  assert (Hp : (p < length (loggers g))%nat)
    by (eapply lookup_lt_Some; exact Hlg).
  destruct lg as [z' o' c ini]. simpl in Ho, Hz, HM. subst z' o'.
  destruct g as [l0 ws d i w e ls rs wr]. simpl in Hl, Hlg, Hp. subst l0.
  unfold SetLevel, after_SetLevel, Logger_Info, zap_log, load_Opts, modify,
    store, set_loggers, load, get, bind, ret, panic, AtomicLevel_SetLevel.
  cbn. rewrite Hlg. cbn.
  repeat (rewrite ?Hlg, ?list_lookup_insert_eq by exact Hp; cbn).
  rewrite HM. cbn.
  repeat (rewrite ?Hlg, ?list_lookup_insert_eq, ?list_insert_insert_eq
            by exact Hp; cbn).
  erewrite Check_uniform; [| | | exact Hen].
  2:{ cbn. apply list_lookup_insert_eq. exact Hp. }
  2:{ reflexivity. }
  unfold emit. cbn.
  now destruct (zapcore.InfoLevel >=? level)%Z.
Qed.

Lemma wf_after_SetLevel (level : zapcore.Level) (g : Globals) :
  wf g -> wf (snd (SetLevel level g)).
Proof.
  intros Hwf. unfold wf in Hwf.
  destruct (l g) as [p|] eqn:Hl.
  - destruct Hwf as (lg & o & z & M & Hlg & Ho & Hz & HM & Hen & Hd & Hi
                     & Hw & He).
    rewrite (SetLevel_eq level g p lg o z M) by assumption.
    unfold wf. simpl snd. simpl l. rewrite Hl.
    eexists _, _, z, level. simpl.
    split; [apply list_lookup_insert_eq; eapply lookup_lt_Some; exact Hlg |].
    repeat split; assumption.
  - unfold SetLevel, get, bind. rewrite Hl. simpl. unfold wf. now rewrite Hl.
Qed.

Lemma Sync_state (g : Globals) : snd (Sync g) = g.
Proof.
  unfold Sync, get, bind. destruct (l g) as [p|]; [| reflexivity].
  unfold load. destruct (loggers g !! p) as [lg|]; [| reflexivity].
  now destruct (Logger_ lg).
Qed.

(** Every state reached through calls that returned is well formed. *)
Lemma reachable_wf (env : Env) (g : Globals) : reachable env g -> wf g.
Proof.
  induction 1 as [|g opt _ _|g lvl _ IH|g _ IH|g msg _ IH|g msg _ IH
                  |g msg _ IH|g msg _ IH|g z lvl msg _ IH].
  - exact I.
  - rewrite NewLogger_eq. apply wf_after_NewLogger.
  - now apply wf_after_SetLevel.
  - now rewrite Sync_state.
  - eapply wf_same_variables; [apply zap_log_same_variables | exact IH].
  - eapply wf_same_variables; [apply zap_log_same_variables | exact IH].
  - eapply wf_same_variables; [apply zap_log_same_variables | exact IH].
  - eapply wf_same_variables; [apply zap_log_same_variables | exact IH].
  - eapply wf_same_variables; [apply zap_log_same_variables | exact IH].
Qed.


(** C8, on the code: [SetLevel] sets the minimum of the [Logger] that
    [l] points to, and of no other.  A second [NewLogger] does not return
    nil but makes a second [Logger] (C1), so after [NewLogger],
    [NewLogger], [SetLevel(level)] the logger that the first call
    returned is still in use and still filters on the level of its own
    options: a record of severity [S] goes through it to every one of its
    sinks exactly when [S] is at least that level, whatever [level] is,
    while the logger of the second call filters on [level]. *)
Theorem SetLevel_misses_earlier_logger
        (env : Env) (opt1 opt2 : list Option) (g : Globals)
        (level S : zapcore.Level) (msg : string) :
  let r1 := NewLogger env opt1 g in
  let r2 := NewLogger env opt2 (snd r1) in
  let r3 := SetLevel level (snd r2) in
  let g3 := snd r3 in
  let M1 := Level (final_Options env opt1) in
  exists z1 z2 : zap.Logger,
    fst r1 = Returned (Some z1) /\
    fst r2 = Returned (Some z2) /\
    fst r3 = Returned tt /\
    zap.core z1 <> [] /\
    (forall io, io ∈ zap.core z2 ->
       Enabled (zapcore.enab io) S g3 = (Returned (S >=? level)%Z, g3)) /\
    (forall io, io ∈ zap.core z1 ->
       Enabled (zapcore.enab io) S g3 = (Returned (S >=? M1)%Z, g3)) /\
    zap_log (Some z1) S msg g3
    = emit (if (S >=? M1)%Z
            then map (write_of S msg) (zap.core z1) else []) g3.
Proof.
  cbv zeta. rewrite !NewLogger_eq. cbn [fst snd].
  set (g1 := after_NewLogger env opt1 g).
  set (g2 := after_NewLogger env opt2 g1).
  destruct (NewLogger_current env opt1 g) as (_ & Hlg1).
  destruct (NewLogger_current env opt2 g1) as (Hl2 & Hlg2).
  fold g1 in Hlg1. fold g2 in Hl2, Hlg2.
  pose proof (built_core_enablers env opt1 (length (loggers g))
                (length (rotators g))) as Hen1.
  pose proof (built_core_enablers env opt2 (length (loggers g1))
                (length (rotators g1))) as Hen2.
  set (lg1 := {| Logger_ := Some (built_Logger env opt1 g);
                  Opts := Some (final_Options env opt1);
                  zapConfig := final_Config env opt1;
                  inited := true |}) in *.
  set (lg2 := {| Logger_ := Some (built_Logger env opt2 g1);
                  Opts := Some (final_Options env opt2);
                  zapConfig := final_Config env opt2;
                  inited := true |}) in *.
  rewrite (SetLevel_eq level g2 (length (loggers g1)) lg2
             (final_Options env opt2) (built_Logger env opt2 g1)
             (Level (final_Options env opt2))
             Hl2 Hlg2 eq_refl eq_refl eq_refl Hen2).
  cbn [fst snd].
  set (g3 := after_SetLevel level (length (loggers g1)) lg2
               (final_Options env opt2) (built_Logger env opt2 g1) g2).
  assert (Hlen : length (loggers g1) = Datatypes.S (length (loggers g))).
  { subst g1. simpl. rewrite length_app. simpl. apply Nat.add_1_r. }
  assert (H1 : loggers g3 !! length (loggers g) = Some lg1).
  { assert (Hne : length (loggers g1) <> length (loggers g))
      by (rewrite Hlen; apply Nat.neq_succ_diag_l).
    unfold g3, after_SetLevel. cbn [loggers].
    rewrite list_lookup_insert_ne by exact Hne.
    unfold g2, after_NewLogger. cbn [loggers].
    apply lookup_app_l_Some. exact Hlg1. }
  assert (H2 : loggers g3 !! length (loggers g1)
               = Some {| Logger_ := Some (built_Logger env opt2 g1);
                         Opts := Some (WithLevel level
                                         (final_Options env opt2));
                         zapConfig := zap.set_Level level
                                        (final_Config env opt2);
                         inited := true |}).
  { unfold g3, after_SetLevel. cbn [loggers].
    apply list_lookup_insert_eq. eapply lookup_lt_Some. exact Hlg2. }
  exists (built_Logger env opt1 g), (built_Logger env opt2 g1).
  split; [reflexivity |]. split; [reflexivity |]. split; [reflexivity |].
  split; [discriminate |].
  split; [| split].
  - intros io Hio. rewrite Forall_forall in Hen2.
    rewrite (Hen2 io Hio). simpl Enabled.
    eapply filePriority_eq; [exact H2 | reflexivity].
  - intros io Hio. rewrite Forall_forall in Hen1.
    rewrite (Hen1 io Hio). simpl Enabled.
    eapply filePriority_eq; [exact H1 | reflexivity].
  - unfold zap_log, bind.
    change (zap.core (built_Logger env opt1 g))
      with (built_core env opt1 (length (loggers g)) (length (rotators g))).
    rewrite (Check_uniform g3 (length (loggers g)) lg1
               (Level (final_Options env opt1)) S _ H1 eq_refl Hen1).
    now destruct (S >=? Level (final_Options env opt1))%Z.
Qed.

(** After [NewLogger()], [NewLogger()], [SetLevel(zapcore.ErrorLevel)],
    the logger of the first call still writes a record of severity Info,
    which the entry point [Info] filters out. *)
Example SetLevel_Error_first_logger_writes_Info :
  let r1 := NewLogger sample_env [] init in
  let g2 := snd (NewLogger sample_env [] (snd r1)) in
  let g3 := snd (SetLevel zapcore.ErrorLevel g2) in
  exists z1 : zap.Logger,
    fst r1 = Returned (Some z1) /\
    length (written (snd (zap_log (Some z1) zapcore.InfoLevel "hello" g3)))
    = Datatypes.S (length (written g3)) /\
    written (snd (call (Info g3) "hello" g3)) = written g3.
Proof. eexists. vm_compute. repeat split. Qed.

(* ===================================================================== *)
(** * The statements at sample inputs                                     *)
(* ===================================================================== *)

(** The dump of a second crash within the same second gets the
    suffix [_1]. *)
Example newDumpFile_collision :
  option_map fst (newDumpFile 2 sample_env sample_world)
  = Some "/opt/app/exceptions/2024-01-02/exceptions.10_30_00_1.log".
Proof. vm_compute. reflexivity. Qed.


Lemma CatchException_never_reraises_witness :
  panicking sample_world = Some (val_iface "&errors.errorString{s:boom}") /\
  exists w' : World,
    CatchException 2 sample_env sample_world = Some w' /\
    panicking w' = None.
Proof.
  split; [reflexivity |].
  assert (H1 : Z.of_nat (size (fs sample_world)) < int_max)
    by (vm_compute; reflexivity).
  assert (H2 : (size (fs sample_world) < 2)%nat) by (vm_compute; lia).
  destruct (CatchException_never_reraises sample_env sample_world 2
              (val_iface "&errors.errorString{s:boom}") eq_refl H1 H2)
    as (w' & H & Hp & _).
  exists w'. split; [exact H | exact Hp].
Defined.

(** When the system lets nothing be written, the open error is all that
    is printed, and no file is made. *)
Example CatchException_open_fails :
  let env := {| binDir := binDir sample_env; cwd := cwd sample_env;
                sp := sp sample_env; clock := clock sample_env;
                denied := fun _ => true; stack := stack sample_env |} in
  option_map (fun w => (stdout w, fs w, panicking w))
             (CatchException 2 env sample_world)
  = Some ("open /opt/app/exceptions/2024-01-02/exceptions.10_30_00_1.log: permission denied" +:+ nl,
          fs sample_world, None).
Proof. vm_compute. reflexivity. Qed.

Lemma fileName_by_length_witness :
  String.length "error.log" <> 4%nat /\
  String.length ".log" = 4%nat /\
  fileName sample_env (final_Options sample_env []) "error.log"
  = "/srv/logs//app-error.log" /\
  fileName sample_env (final_Options sample_env []) ".log"
  = "/srv/logs//app.log".
Proof.
  assert (H1 : String.length "error.log" <> 4%nat) by (simpl; lia).
  assert (H2 : String.length ".log" = 4%nat) by reflexivity.
  split; [exact H1 |]. split; [exact H2 |].
  destruct (fileName_by_length sample_env (final_Options sample_env [])
              "error.log") as (_ & Hne & _ & _).
  destruct (fileName_by_length sample_env (final_Options sample_env [])
              ".log") as (_ & _ & Heq & _).
  split; [rewrite (Hne H1) | rewrite (Heq H2)]; reflexivity.
Defined.

Lemma severity_filter_witness :
  exists (wrap : zapcore.Core -> zapcore.Core) (delivered : list Write),
    cores 0 sample_globals = (Returned (zap.WrapCore wrap), sample_globals) /\
    zap_log (Some (zap.WithOptions [zap.WrapCore wrap] (zap.New [])))
            zapcore.ErrorLevel "disk full" sample_globals
    = emit delivered sample_globals /\
    zapcore.ErrorLevel >= zapcore.WarnLevel /\
    length (wrap []) = 2%nat /\
    delivered = map (write_of zapcore.ErrorLevel "disk full") (wrap []).
Proof.
  pose (opt := [WithDevelopment true; WithLevel zapcore.WarnLevel]).
  destruct (severity_filter sample_globals 0
              {| Logger_ := Some (built_Logger sample_env opt init);
                 Opts := Some (final_Options sample_env opt);
                 zapConfig := final_Config sample_env opt;
                 inited := true |}
              (final_Options sample_env opt)
              zapcore.WarnLevel zapcore.ErrorLevel "disk full" []
              eq_refl eq_refl eq_refl)
    as (wrap & delivered & Hc & Hw & _ & Hlog & Hall & _ & _).
  assert (Hge : zapcore.ErrorLevel >= zapcore.WarnLevel)
    by (vm_compute; discriminate).
  exists wrap, delivered. split; [exact Hc |]. split; [exact Hlog |].
  split; [exact Hge |]. split; [rewrite Hw; reflexivity |].
  exact (Hall Hge).
Defined.

Lemma options_last_write_wins_witness :
  exists (z : zap.Logger) (g' : Globals) (o : Options),
    NewLogger sample_env (map eval_call sample_calls) init
    = (Returned (Some z), g') /\
    read_field FAppName o = VString "gateway" /\
    read_field FMaxAge o = VInt 7 /\
    read_field FMaxSize o = VInt 100.
Proof.
  destruct (options_last_write_wins sample_env init sample_calls)
    as (z & g' & p & lg & o & Hnew & _ & _ & _ & _ & Hlast & Hdef).
  exists z, g', o. split; [exact Hnew |]. split; [| split].
  - apply (Hlast [CallWithAppName "svc"; CallWithMaxAge 7] []
                 (CallWithAppName "gateway") eq_refl).
    intros c' Hc'. apply elem_of_nil in Hc'. contradiction.
  - apply (Hlast [CallWithAppName "svc"] [CallWithAppName "gateway"]
                 (CallWithMaxAge 7) eq_refl).
    intros c' Hc'. apply elem_of_cons in Hc' as [->|Hc']; [reflexivity |].
    apply elem_of_nil in Hc'. contradiction.
  - apply (Hdef FMaxSize). intros c Hc. unfold sample_calls in Hc.
    repeat (apply elem_of_cons in Hc as [->|Hc]; [reflexivity |]).
    apply elem_of_nil in Hc. contradiction.
Defined.


Lemma sinks_ignore_per_severity_names_witness :
  without_names [CallWithAppName "svc"; CallWithErrorFileName "err.log"]
  = without_names [CallWithWarnFileName "warn.log"; CallWithAppName "svc"] /\
  sinks_of (NewLogger sample_env
              (map eval_call
                   [CallWithAppName "svc"; CallWithErrorFileName "err.log"])
              init)
  = sinks_of (NewLogger sample_env
                (map eval_call
                     [CallWithWarnFileName "warn.log"; CallWithAppName "svc"])
                init).
Proof.
  split; [reflexivity |].
  apply (sinks_ignore_per_severity_names sample_env init
           [CallWithAppName "svc"; CallWithErrorFileName "err.log"]
           [CallWithWarnFileName "warn.log"; CallWithAppName "svc"]
           eq_refl).
Defined.

(** The sixteen cases of the filter on the four severities of the entry
    points. *)
Example filter_sixteen_cases :
  let levels := [zapcore.DebugLevel; zapcore.InfoLevel; zapcore.WarnLevel;
                 zapcore.ErrorLevel] in
  map (fun M =>
         map (fun S =>
                fst (filePriority 0 S (snd (SetLevel M sample_globals))))
             levels)
      levels
  = [ [Returned true; Returned true; Returned true; Returned true];
      [Returned false; Returned true; Returned true; Returned true];
      [Returned false; Returned false; Returned true; Returned true];
      [Returned false; Returned false; Returned false; Returned true] ].
Proof. vm_compute. reflexivity. Qed.

(** [SetLevel] reaches the [Logger] that [l] points to: a logger handed
    out by an earlier [NewLogger] keeps filtering on its own level. *)
Example SetLevel_after_second_NewLogger :
  let g1 := snd (NewLogger sample_env [WithLevel zapcore.InfoLevel] init) in
  let g2 := snd (NewLogger sample_env [WithLevel zapcore.InfoLevel] g1) in
  let g3 := snd (SetLevel zapcore.ErrorLevel g2) in
  fst (zapConfig_Level 0 g3) = Returned zapcore.InfoLevel /\
  fst (zapConfig_Level 1 g3) = Returned zapcore.ErrorLevel.
Proof. vm_compute. split; reflexivity. Qed.

(* ===================================================================== *)
(** * Further properties of the logger                                    *)
(* ===================================================================== *)


(** X2. [NewLogger] touches nothing that was there before: every
    [Logger] and every rotating writer allocated earlier is as it was,
    exactly one [Logger] and one rotating writer are added, and the
    records written so far stay, in order, in front of the new ones. *)
Theorem NewLogger_keeps_earlier_objects (env : Env) (opt : list Option)
        (g : Globals) :
  let g' := snd (NewLogger env opt g) in
  (forall (q : nat) (lg : Logger),
     loggers g !! q = Some lg -> loggers g' !! q = Some lg) /\
  (forall (a : nat) (r : lumberjack.Logger),
     rotators g !! a = Some r -> rotators g' !! a = Some r) /\
  length (loggers g') = S (length (loggers g)) /\
  length (rotators g') = S (length (rotators g)) /\
  exists ws : list Write, written g' = (written g ++ ws)%list.
Proof.
  cbv zeta. rewrite NewLogger_eq. simpl snd.
  split; [| split; [| split; [| split]]].
  - intros q lg H. simpl. now apply lookup_app_l_Some.
  - intros a r H. simpl. now apply lookup_app_l_Some.
  - simpl. rewrite length_app. simpl. lia.
  - simpl. rewrite length_app. simpl. lia.
  - destruct (after_NewLogger_written env opt g) as (ws & H & _).
    exists ws. exact H.
Qed.

(** X3. The logger [NewLogger] returns always writes to the file writer
    constructed by this call, in JSON, and writes to the console as well
    exactly when the options end with [Development] set; the file writer
    is named by [fileName] from the base file name and rotates with the
    limits of the options, compressed, on local time. *)
Theorem sinks_of_NewLogger (env : Env) (opt : list Option) (g : Globals) :
  let o := final_Options env opt in
  exists (z : zap.Logger) (g' : Globals),
    NewLogger env opt g = (Returned (Some z), g') /\
    fileWs g' = zapcore.Lumberjack (length (rotators g)) /\
    rotators g' !! length (rotators g)
    = Some {| lumberjack.Filename := fileName env o (FileName o);
              lumberjack.MaxSize := MaxSize o;
              lumberjack.MaxBackups := MaxBackups o;
              lumberjack.MaxAge := MaxAge o;
              lumberjack.Compress := true;
              lumberjack.LocalTime := true |} /\
    map zapcore.out (zap.core z)
    = fileWs g' :: (if Development o then [consoleWs] else []) /\
    map zapcore.enc (zap.core z)
    = zapcore.NewJSONEncoder
        (zapcore.set_EncodeTime timeEncoder zap.NewProductionEncoderConfig)
      :: (if Development o
          then [zapcore.NewConsoleEncoder
                  (zapcore.set_EncodeLevel zapcore.CapitalColorLevelEncoder
                     (zapcore.set_EncodeTime timeEncoder
                        zap.NewDevelopmentEncoderConfig))]
          else []).
Proof.
  cbv zeta. eexists _, _. rewrite NewLogger_eq.
  split; [reflexivity |]. split; [reflexivity |].
  split; [simpl; apply lookup_snoc |].
  unfold built_Logger, built_core. simpl.
  split; destruct (Development (final_Options env opt)); reflexivity.
Qed.

(** X4. The record "[NewLogger] success" passes through the filter like
    any other: it is written, once to every sink of the new logger, when
    the options end with a level of Info or below, and not at all when
    they end with Warn or above. *)
Theorem NewLogger_success_record (env : Env) (opt : list Option)
        (g : Globals) :
  exists (z : zap.Logger) (g' : Globals),
    NewLogger env opt g = (Returned (Some z), g') /\
    (Level (final_Options env opt) <= zapcore.InfoLevel ->
     written g'
     = (written g ++
        map (write_of zapcore.InfoLevel "[NewLogger] success")
            (zap.core z))%list) /\
    (zapcore.InfoLevel < Level (final_Options env opt) ->
     written g' = written g).
Proof.
  eexists _, _. rewrite NewLogger_eq. split; [reflexivity |].
  unfold after_NewLogger. simpl written.
  split; intros H.
  - now replace (zapcore.InfoLevel >=? Level (final_Options env opt))%Z
      with true by (symmetry; apply Z.geb_le; lia).
  - destruct (zapcore.InfoLevel >=? Level (final_Options env opt))%Z eqn:E.
    + apply Z.geb_le in E. lia.
    + apply app_nil_r.
Qed.

(** X5. After [NewLogger], each of the entry points [Debug], [Info],
    [Warn], [Error] is a method of the logger just returned and logs at
    its own severity: a call writes the record to every sink of that
    logger when the severity is at least the level the options ended
    with, and writes nothing otherwise. *)
Theorem entry_points_after_NewLogger (env : Env) (opt : list Option)
        (g : Globals) (msg : string) :
  exists (z : zap.Logger) (g' : Globals),
    NewLogger env opt g = (Returned (Some z), g') /\
    forall (f : LogOutputFunc) (S : zapcore.Level),
      (f, S) ∈ entry_points g' ->
      recv f = Some z /\ at_level f = S /\
      call f msg g'
      = emit (if (S >=? Level (final_Options env opt))%Z
              then map (write_of S msg) (zap.core z) else []) g'.
Proof.
  eexists _, _. rewrite NewLogger_eq. split; [reflexivity |].
  destruct (NewLogger_current env opt g) as (_ & Hlg).
  assert (Hcall : forall S,
            zap_log (Some (built_Logger env opt g)) S msg
                    (after_NewLogger env opt g)
            = emit (if (S >=? Level (final_Options env opt))%Z
                    then map (write_of S msg)
                             (zap.core (built_Logger env opt g))
                    else []) (after_NewLogger env opt g)).
  { intros S. unfold zap_log, bind.
    erewrite Check_uniform;
      [| exact Hlg | reflexivity | apply built_core_enablers].
    now destruct (S >=? Level (final_Options env opt))%Z. }
  intros f S Hin. unfold entry_points in Hin.
  repeat (apply elem_of_cons in Hin as [Heq|Hin];
          [injection Heq as -> ->; repeat split; apply Hcall |]).
  now apply elem_of_nil in Hin.
Qed.

(** [SetLevel] does not move [l]. *)
Lemma SetLevel_l (level : zapcore.Level) (g : Globals) :
  wf g -> l (snd (SetLevel level g)) = l g.
Proof.
  intros Hwf. unfold wf in Hwf. destruct (l g) as [p|] eqn:Hl.
  - destruct Hwf as (lg & o & z & M & Hlg & Ho & Hz & HM & Hen & _).
    rewrite (SetLevel_eq level g p lg o z M) by assumption. exact Hl.
  - unfold SetLevel, get, bind. rewrite Hl. exact Hl.
Qed.

(** Until the first [NewLogger], the package-level variables are those of
    [init], but for the records written. *)
Lemma reachable_before_NewLogger (env : Env) (g : Globals) :
  reachable env g -> l g = None -> same_variables init g.
Proof.
  induction 1 as [|g opt _ _|g lvl Hr IH|g _ IH|g msg _ IH|g msg _ IH
                  |g msg _ IH|g msg _ IH|g z lvl msg _ IH]; intros Hl.
  - repeat split.
  - rewrite NewLogger_eq in Hl. discriminate Hl.
  - rewrite SetLevel_l in Hl by (eapply reachable_wf; exact Hr).
    unfold SetLevel, get, bind. rewrite Hl. now apply IH.
  - rewrite Sync_state in *. now apply IH.
  - pose proof (zap_log_same_variables (recv (Debug g)) (at_level (Debug g))
                  msg g) as Hs. unfold call in *.
    destruct Hs as (H1 & H2 & H3 & H4 & H5 & H6 & H7 & H8).
    rewrite H1 in Hl. specialize (IH Hl). unfold same_variables in *.
    rewrite H1, H2, H3, H4, H5, H6, H7, H8. exact IH.
  - pose proof (zap_log_same_variables (recv (Info g)) (at_level (Info g))
                  msg g) as Hs. unfold call in *.
    destruct Hs as (H1 & H2 & H3 & H4 & H5 & H6 & H7 & H8).
    rewrite H1 in Hl. specialize (IH Hl). unfold same_variables in *.
    rewrite H1, H2, H3, H4, H5, H6, H7, H8. exact IH.
  - pose proof (zap_log_same_variables (recv (Warn g)) (at_level (Warn g))
                  msg g) as Hs. unfold call in *.
    destruct Hs as (H1 & H2 & H3 & H4 & H5 & H6 & H7 & H8).
    rewrite H1 in Hl. specialize (IH Hl). unfold same_variables in *.
    rewrite H1, H2, H3, H4, H5, H6, H7, H8. exact IH.
  - pose proof (zap_log_same_variables (recv (Error g)) (at_level (Error g))
                  msg g) as Hs. unfold call in *.
    destruct Hs as (H1 & H2 & H3 & H4 & H5 & H6 & H7 & H8).
    rewrite H1 in Hl. specialize (IH Hl). unfold same_variables in *.
    rewrite H1, H2, H3, H4, H5, H6, H7, H8. exact IH.
  - pose proof (zap_log_same_variables (Some z) lvl msg g) as Hs.
    destruct Hs as (H1 & H2 & H3 & H4 & H5 & H6 & H7 & H8).
    rewrite H1 in Hl. specialize (IH Hl). unfold same_variables in *.
    rewrite H1, H2, H3, H4, H5, H6, H7, H8. exact IH.
Qed.

(** X6. Until [NewLogger] is called, the entry points are those of
    [init]: whatever was called before, a call of [Debug], [Info], [Warn]
    or [Error] writes exactly one record, to standard output, in the
    console encoding of [init]; none of the four severities is filtered
    out. *)
Theorem bootstrap_logs_everything (env : Env) (g : Globals) (msg : string) :
  reachable env g ->
  l g = None ->
  forall (f : LogOutputFunc) (S : zapcore.Level),
    (f, S) ∈ entry_points g ->
    call f msg g = emit [bootstrap_write S msg] g.
Proof.
  intros Hr Hl f S Hin.
  destruct (reachable_before_NewLogger env g Hr Hl)
    as (_ & _ & Hd & Hi & Hw & He & _).
  unfold entry_points in Hin. rewrite Hd, Hi, Hw, He in Hin.
  repeat (apply elem_of_cons in Hin as [Heq|Hin];
          [injection Heq as -> ->; reflexivity |]).
  now apply elem_of_nil in Hin.
Qed.

(** X7. [Sync] changes no package-level variable, in any state.  It
    returns at once when [l] is nil; when [l] points to a [Logger], it
    panics on a nil pointer if the zap logger of that [Logger] is nil (as
    it is after a [NewLogger] that an option stopped with a panic), and
    returns otherwise.  After calls that all returned, the zap logger is
    never nil, and [Sync] returns. *)
Theorem Sync_panics_only_without_logger (g : Globals) :
  snd (Sync g) = g /\
  (l g = None -> fst (Sync g) = Returned tt) /\
  (forall (p : nat) (lg : Logger),
     l g = Some p -> loggers g !! p = Some lg ->
     (Logger_ lg = None -> fst (Sync g) = Panicked nil_dereference) /\
     (Logger_ lg <> None -> fst (Sync g) = Returned tt)) /\
  (forall env : Env, reachable env g -> Sync g = (Returned tt, g)).
Proof.
  split; [apply Sync_state |].
  split; [| split].
  - intros Hl. unfold Sync, get, bind. now rewrite Hl.
  - intros p lg Hl Hlg. unfold Sync, get, bind, load.
    rewrite Hl, Hlg. destruct (Logger_ lg) as [z|].
    + split; [discriminate | reflexivity].
    + split; [reflexivity |]. intros H. now contradiction H.
  - intros env Hr. apply reachable_wf in Hr. unfold wf in Hr.
    unfold Sync, get, bind. destruct (l g) as [p|]; [| reflexivity].
    destruct Hr as (lg & o & z & M & Hlg & _ & Hz & _).
    unfold load. now rewrite Hlg, Hz.
Qed.



(** X9. [SetLevel] reaches the [Logger] that [l] points to and nothing
    else: [l], [fileWs], the entry points and the rotating writers are
    as before, every other [Logger] in the store is untouched (a logger
    handed out by an earlier [NewLogger] keeps its level), and the one it
    reaches keeps its zap logger and all its options but [Level]. *)
Theorem SetLevel_frame (env : Env) (g : Globals) (level : zapcore.Level) :
  reachable env g ->
  let g' := snd (SetLevel level g) in
  l g' = l g /\ fileWs g' = fileWs g /\ rotators g' = rotators g /\
  entry_points g' = entry_points g /\
  (forall q : nat, l g <> Some q -> loggers g' !! q = loggers g !! q) /\
  (forall (p : nat) (lg : Logger) (o : Options),
     l g = Some p -> loggers g !! p = Some lg -> Opts lg = Some o ->
     exists lg' : Logger,
       loggers g' !! p = Some lg' /\
       Logger_ lg' = Logger_ lg /\ inited lg' = inited lg /\
       Opts lg' = Some (WithLevel level o)).
Proof.
  intros Hr. cbv zeta. apply reachable_wf in Hr. unfold wf in Hr.
  destruct (l g) as [p|] eqn:Hl.
  - destruct Hr as (lg & o & z & M & Hlg & Ho & Hz & HM & Hen & _).
    rewrite (SetLevel_eq level g p lg o z M) by assumption. simpl snd.
    split; [exact Hl |]. repeat (split; [reflexivity |]). split.
    + intros q Hq. simpl. apply list_lookup_insert_ne. congruence.
    + intros p' lg1 o1 Hp' Hlg1 Ho1. injection Hp' as <-.
      rewrite Hlg in Hlg1. injection Hlg1 as <-.
      rewrite Ho in Ho1. injection Ho1 as <-.
      eexists. simpl. split.
      * apply list_lookup_insert_eq. eapply lookup_lt_Some. exact Hlg.
      * simpl. repeat split. now rewrite Hz.
  - unfold SetLevel, get, bind. rewrite Hl. simpl snd.
    split; [exact Hl |]. repeat (split; [reflexivity |]).
    intros p lg o Hp. discriminate Hp.
Qed.

(** X10. [SetLevel] reports its own success through the filter it has
    just changed: "[SetLevel] success" is written, once to every sink
    behind the entry points, when the new level is Info or below, and
    nothing at all is written when the new level is Warn or above. *)
Theorem SetLevel_success_record (env : Env) (g : Globals)
        (level : zapcore.Level) (p : nat) :
  reachable env g ->
  l g = Some p ->
  exists z : zap.Logger,
    recv (Info g) = Some z /\
    (level <= zapcore.InfoLevel ->
     written (snd (SetLevel level g))
     = (written g ++
        map (write_of zapcore.InfoLevel "[SetLevel] success")
            (zap.core z))%list) /\
    (zapcore.InfoLevel < level ->
     written (snd (SetLevel level g)) = written g).
Proof.
  intros Hr Hl. apply reachable_wf in Hr. unfold wf in Hr.
  rewrite Hl in Hr.
  destruct Hr as (lg & o & z & M & Hlg & Ho & Hz & HM & Hen & _ & Hi & _).
  exists z. split; [exact Hi |].
  rewrite (SetLevel_eq level g p lg o z M) by assumption.
  simpl snd. unfold after_SetLevel. simpl written.
  split; intros H.
  - now replace (zapcore.InfoLevel >=? level)%Z
      with true by (symmetry; apply Z.geb_le; lia).
  - destruct (zapcore.InfoLevel >=? level)%Z eqn:E.
    + apply Z.geb_le in E. lia.
    + apply app_nil_r.
Qed.

(** *** The options as an algebra *)

Lemma eval_call_comm (c1 c2 : OptionCall) (o : Options) :
  fst (assigns c1) <> fst (assigns c2) ->
  eval_call c1 (eval_call c2 o) = eval_call c2 (eval_call c1 o).
Proof. destruct c1, c2; simpl; intros H; try reflexivity; congruence. Qed.

Lemma eval_call_absorb (c1 c2 : OptionCall) (o : Options) :
  fst (assigns c1) = fst (assigns c2) ->
  eval_call c2 (eval_call c1 o) = eval_call c2 o.
Proof. destruct c1, c2; simpl; intros H; try reflexivity; discriminate H. Qed.

Lemma apply_all_cons (c : OptionCall) (calls : list OptionCall)
      (o : Options) :
  apply_all (map eval_call (c :: calls)) o
  = apply_all (map eval_call calls) (eval_call c o).
Proof. reflexivity. Qed.

Lemma apply_all_app (cs1 cs2 : list OptionCall) (o : Options) :
  apply_all (map eval_call (cs1 ++ cs2)%list) o
  = apply_all (map eval_call cs2) (apply_all (map eval_call cs1) o).
Proof. unfold apply_all. now rewrite map_app, fold_left_app. Qed.

Lemma apply_all_perm (cs1 cs2 : list OptionCall) :
  Permutation cs1 cs2 ->
  NoDup (fields_written cs1) ->
  forall o : Options,
    apply_all (map eval_call cs1) o = apply_all (map eval_call cs2) o.
Proof.
  induction 1 as [|c cs1 cs2 Hp IH|c1 c2 cs|cs1 cs2 cs3 Hp1 IH1 Hp2 IH2];
    intros Hnd o.
  - reflexivity.
  - rewrite !apply_all_cons. apply IH.
    unfold fields_written in *. simpl in Hnd. now apply NoDup_cons in Hnd.
  - rewrite !apply_all_cons. f_equal. apply eval_call_comm.
    unfold fields_written in Hnd. simpl in Hnd.
    apply NoDup_cons in Hnd as (Hnin & _). intros Heq. apply Hnin.
    rewrite Heq. left.
  - rewrite IH1 by exact Hnd. apply IH2.
    unfold fields_written in *.
    assert (Hm : Permutation (map (fun c => fst (assigns c)) cs1)
                             (map (fun c => fst (assigns c)) cs2))
      by now apply Permutation_map.
    now rewrite <- Hm.
Qed.

Lemma Field_eqb_spec (a b : Field) : reflect (a = b) (Field_eqb a b).
Proof. destruct a, b; constructor; congruence. Qed.

Lemma drop_overwritten (c1 c2 : OptionCall) (mid : list OptionCall) :
  fst (assigns c1) = fst (assigns c2) ->
  forall o : Options,
    apply_all (map eval_call (c1 :: mid ++ [c2])%list) o
    = apply_all (map eval_call (mid ++ [c2])%list) o.
Proof.
  intros Hf. induction mid as [|m mid IH]; intros o.
  - simpl app. rewrite !apply_all_cons. f_equal.
    now apply eval_call_absorb.
  - simpl app. rewrite apply_all_cons.
    rewrite (apply_all_cons m), (apply_all_cons m).
    destruct (Field_eqb_spec (fst (assigns c1)) (fst (assigns m)))
      as [He|Hne].
    + now rewrite eval_call_absorb.
    + rewrite <- (eval_call_comm c1 m) by exact Hne.
      rewrite <- apply_all_cons. apply IH.
Qed.

(** [NewLogger] reads its options through the [Options] they end in. *)
Lemma NewLogger_ext (env : Env) (opt1 opt2 : list Option) (g : Globals) :
  final_Options env opt1 = final_Options env opt2 ->
  NewLogger env opt1 g = NewLogger env opt2 g.
Proof.
  intros H. rewrite !NewLogger_eq.
  unfold after_NewLogger, built_Logger, built_core, final_Config.
  now rewrite H.
Qed.

(** X11. Options that write different fields can be given in any order:
    when no two calls of a list write the same field, every reordering
    of the list makes [NewLogger] return the same logger and leave the
    same package-level variables. *)
Theorem option_order_is_irrelevant (env : Env) (g : Globals)
        (calls1 calls2 : list OptionCall) :
  Permutation calls1 calls2 ->
  NoDup (fields_written calls1) ->
  NewLogger env (map eval_call calls1) g
  = NewLogger env (map eval_call calls2) g.
Proof.
  intros Hp Hnd. apply NewLogger_ext. unfold final_Options.
  now apply (apply_all_perm calls1 calls2).
Qed.

(** X12. An option whose field is written again further down the list
    has no effect at all: taking it out changes neither the logger
    [NewLogger] returns nor the package-level variables it leaves. *)
Theorem overwritten_option_is_dead (env : Env) (g : Globals)
        (pre mid post : list OptionCall) (c1 c2 : OptionCall) :
  fst (assigns c1) = fst (assigns c2) ->
  NewLogger env (map eval_call (pre ++ c1 :: mid ++ c2 :: post)%list) g
  = NewLogger env (map eval_call (pre ++ mid ++ c2 :: post)%list) g.
Proof.
  intros Hf. apply NewLogger_ext. unfold final_Options.
  fold (apply_all (map eval_call (pre ++ c1 :: mid ++ c2 :: post)%list)).
  fold (apply_all (map eval_call (pre ++ mid ++ c2 :: post)%list)).
  assert (E1 : (pre ++ c1 :: mid ++ c2 :: post
                = pre ++ (c1 :: mid ++ [c2]) ++ post)%list)
    by (simpl; now rewrite <- app_assoc).
  assert (E2 : (pre ++ mid ++ c2 :: post
                = pre ++ (mid ++ [c2]) ++ post)%list)
    by now rewrite <- app_assoc.
  rewrite E1, E2.
  rewrite (apply_all_app pre), (apply_all_app pre).
  rewrite (apply_all_app (c1 :: mid ++ [c2])), (apply_all_app (mid ++ [c2])).
  f_equal. now apply drop_overwritten.
Qed.

(** *** The name of the log file *)

(** X13. The name of the log file does not tell two suffixes apart: a
    four-byte suffix that starts with a hyphen names the same file as the
    three bytes after the hyphen, because the first loses the hyphen
    [fileName] would add and the second gets it. *)
Theorem fileName_collision (env : Env) (o : Options) (s : string) :
  String.length s = 3%nat ->
  "-" +:+ s <> s /\
  fileName env o ("-" +:+ s) = fileName env o s.
Proof.
  intros Hlen. split.
  - intros H. apply (f_equal String.length) in H.
    rewrite string_app_length in H. simpl in H. lia.
  - unfold fileName. rewrite string_app_length, Hlen. reflexivity.
Qed.

(** X14. Without a [WithLogFileDir] option the log file is put under
    [<cwd>/logs/], and its name has the separator twice in a row after
    [logs]: the default directory already ends with the separator and
    [fileName] adds one more. *)
Theorem default_directory_doubles_separator (env : Env) (g : Globals)
        (calls : list OptionCall) :
  (forall c, c ∈ calls -> touches c FLogFileDir = false) ->
  exists (z : zap.Logger) (g' : Globals) (r : lumberjack.Logger)
         (name : string),
    NewLogger env (map eval_call calls) g = (Returned (Some z), g') /\
    rotators g' !! length (rotators g) = Some r /\
    fileWs g' = zapcore.Lumberjack (length (rotators g)) /\
    lumberjack.Filename r
    = (cwd env +:+ sp env +:+ "logs" +:+ sp env) +:+ sp env +:+ name.
Proof.
  intros H.
  set (o := final_Options env (map eval_call calls)).
  assert (Hd : LogFileDir o = cwd env +:+ sp env +:+ "logs" +:+ sp env).
  { pose proof (apply_all_untouched calls FLogFileDir
                  (final_Options env []) H) as Hd.
    simpl in Hd. injection Hd as Hd. exact Hd. }
  exists (built_Logger env (map eval_call calls) g),
         (after_NewLogger env (map eval_call calls) g),
         (rotator_of env o (FileName o)),
         (AppName o +:+
          (if Nat.eqb (String.length (FileName o)) (String.length ".log")
           then FileName o else "-" +:+ FileName o)).
  rewrite NewLogger_eq.
  split; [reflexivity |]. split; [simpl; apply lookup_snoc |].
  split; [reflexivity |].
  unfold rotator_of, fileName. simpl lumberjack.Filename. rewrite Hd.
  now destruct (Nat.eqb _ _).
Qed.

(* ===================================================================== *)
(** * Further properties of the crash recorder                            *)
(* ===================================================================== *)

(** Making directories leaves every entry that is there as it is. *)
Lemma mkdirs_lookup_Some (d : string -> bool) (ps : list string) :
  forall (f : gmap string os.Node) (p : string) (n : os.Node),
    f !! p = Some n -> os.mkdirs d f ps !! p = Some n.
Proof.
  induction ps as [|p0 ps IH]; intros f p n H; simpl; [exact H |].
  destruct (f !! p0) as [[data|]|] eqn:Hp0; [exact H | now apply IH |].
  destruct (d p0); [exact H |].
  apply IH. rewrite lookup_insert_ne; [exact H |]. congruence.
Qed.

Lemma probe_Some_free (fuel : nat) (f : gmap string os.Node)
      (dir filename : string) :
  forall (n : Z) (fn : string),
    probe fuel f dir filename n = Some fn -> isFileExist f fn = false.
Proof.
  induction fuel as [|fuel IH]; intros n fn H; simpl in H; [discriminate H |].
  destruct (isFileExist f _) eqn:E; simpl in H.
  - now apply (IH _ _ H).
  - injection H as <-. exact E.
Qed.

(** The name [newDumpFile] returns is never that of a regular file. *)
Lemma newDumpFile_fresh (fuel : nat) (env : Env) (w w1 : World)
      (fn : string) :
  newDumpFile fuel env w = Some (fn, w1) ->
  isFileExist (fs w1) fn = false /\
  w1 = {| fs := os.MkdirAll (denied env) (fs w)
                  (dump_dir env (clock env (ticks w)));
          stdout := stdout w; ticks := S (ticks w);
          panicking := panicking w |}.
Proof.
  rewrite newDumpFile_unfold. cbv zeta. intros H.
  destruct (isFileExist (fs w) _) eqn:E; simpl in H.
  - destruct (probe _ _ _ _ _) as [fn'|] eqn:Hp; [| discriminate H].
    injection H as <- <-. split; [| reflexivity].
    simpl fs. now apply probe_Some_free in Hp.
  - injection H as <- <-. split; [| reflexivity].
    simpl fs. now rewrite isFileExist_MkdirAll.
Qed.

(** Opening a name that is not a regular file either fails or makes an
    empty file where there was nothing. *)
Lemma OpenFile_fresh (d : string -> bool) (f f' : gmap string os.Node)
      (name : string) :
  isFileExist f name = false ->
  os.OpenFile d f name = inl f' ->
  f !! name = None /\ f' = <[name := os.File ""]> f.
Proof.
  unfold isFileExist, os.Stat, os.OpenFile. intros Hne H.
  destruct (f !! name) as [[data|]|]; [discriminate Hne | discriminate H |].
  split; [reflexivity |].
  destruct (d name); [discriminate H |].
  destruct (last (os.ancestors name)) as [parent|].
  - destruct (f !! parent) as [[data|]|]; try discriminate H.
    now injection H as <-.
  - now injection H as <-.
Qed.

(** X15. [CatchException] never changes and never removes what is in the
    file system: every regular file keeps its contents and every
    directory stays one, whatever was propagating and whether or not the
    dump could be written.  A dump never lands in a file an earlier crash
    left. *)
Theorem CatchException_keeps_existing_files (fuel : nat) (env : Env)
        (w w' : World) :
  CatchException fuel env w = Some w' ->
  forall (p : string) (n : os.Node),
    fs w !! p = Some n -> fs w' !! p = Some n.
Proof.
  unfold CatchException. unfold recover at 1.
  set (wr := {| fs := fs w; stdout := stdout w; ticks := ticks w;
                panicking := None |}).
  intros H p n Hp.
  destruct (match panicking w with Some v => v | None => nil_iface end)
    as [|v]; [injection H as <-; exact Hp |].
  destruct (newDumpFile fuel env wr) as [[fn w1]|] eqn:Hd;
    [| discriminate H].
  apply newDumpFile_fresh in Hd as (Hfree & ->). simpl fs in *.
  assert (Hp1 : os.MkdirAll (denied env) (fs w)
                  (dump_dir env (clock env (ticks w))) !! p = Some n)
    by now apply mkdirs_lookup_Some.
  destruct (os.OpenFile _ _ fn) as [f|e] eqn:Ho.
  - apply (OpenFile_fresh _ _ _ _ Hfree) in Ho as (Hnone & ->).
    injection H as <-. simpl fs. unfold os.append.
    rewrite lookup_insert_eq.
    assert (Hne : fn <> p) by congruence.
    now rewrite !lookup_insert_ne by exact Hne.
  - injection H as <-. exact Hp1.
Qed.

(** X16. When the dump file opens, it is a file that was not there
    before, and after the call it holds exactly one record: the framed
    text with the time of the second reading of the clock, the [%#v]
    rendering of the value recovered and the stack, and a newline.  The
    same bytes go to standard output, and the goroutine is no longer
    panicking. *)
Theorem CatchException_writes_dump (fuel : nat) (env : Env) (w w1 : World)
        (v fn : string) (f : gmap string os.Node) :
  panicking w = Some (val_iface v) ->
  newDumpFile fuel env (snd (recover w)) = Some (fn, w1) ->
  os.OpenFile (denied env) (fs w1) fn = inl f ->
  let s := strLog (clock env (S (ticks w))) v (stack env) in
  exists w' : World,
    CatchException fuel env w = Some w' /\
    fs w !! fn = None /\
    fs w' !! fn = Some (os.File (s +:+ nl)) /\
    stdout w' = stdout w +:+ s +:+ nl /\
    panicking w' = None.
Proof.
  intros Hv Hd Ho. cbv zeta.
  unfold CatchException. unfold recover at 1. rewrite Hv.
  simpl snd in Hd. rewrite Hd, Ho.
  pose proof (newDumpFile_fresh _ _ _ _ _ Hd) as (Hfree & Hw1).
  apply (OpenFile_fresh _ _ _ _ Hfree) in Ho as (Hnone & ->).
  eexists. split; [reflexivity |].
  subst w1. simpl fs in *. simpl ticks. simpl stdout. simpl panicking.
  split; [| split; [| split; reflexivity]].
  - destruct (fs w !! fn) as [n|] eqn:E; [| reflexivity].
    apply (mkdirs_lookup_Some (denied env)
             (os.ancestors (dump_dir env (clock env (ticks w)) +:+ "/")))
      in E.
    unfold os.MkdirAll in Hnone. congruence.
  - unfold os.append. rewrite lookup_insert_eq, lookup_insert_eq.
    now rewrite append_nil_l.
Qed.

(** Called when nothing is propagating, or after [panic(nil)] where
    [recover] hands out nil, [CatchException] writes no dump, makes no
    directory, prints nothing and does not read the clock; it needs no
    probe at all. *)
Theorem CatchException_without_value (fuel : nat) (env : Env) (w : World) :
  panicking w = None \/ panicking w = Some nil_iface ->
  CatchException fuel env w
  = Some {| fs := fs w; stdout := stdout w; ticks := ticks w;
            panicking := None |}.
Proof.
  intros [H|H]; unfold CatchException, recover; now rewrite H.
Qed.

(** X17. A directory in the place of the dump file loses the dump: when
    the first name [newDumpFile] tries is a directory, that name is
    returned without probing any numbered name, the open fails, and all
    [CatchException] does is print the open error; the panic is stopped
    all the same. *)
Theorem directory_in_place_of_dump (fuel : nat) (env : Env) (w : World)
        (v : string) :
  let now := clock env (ticks w) in
  let fn := dump_dir env now +:+ dump_filename now +:+ ".log" in
  panicking w = Some (val_iface v) ->
  fs w !! fn = Some os.Dir ->
  CatchException fuel env w
  = Some {| fs := os.MkdirAll (denied env) (fs w) (dump_dir env now);
            stdout := stdout w +:+ ("open " +:+ fn +:+ ": is a directory")
                        +:+ nl;
            ticks := S (ticks w); panicking := None |}.
Proof.
  cbv zeta. intros Hv Hdir.
  unfold CatchException. unfold recover at 1. rewrite Hv.
  rewrite newDumpFile_unfold. cbv zeta. simpl fs. simpl ticks.
  rewrite (isFileExist_Dir _ _ Hdir). simpl negb. cbv iota.
  unfold os.OpenFile. simpl fs.
  unfold os.MkdirAll. rewrite (mkdirs_lookup_Some _ _ _ _ _ Hdir).
  reflexivity.
Qed.

(* ===================================================================== *)
(** * The time stamp of [timeEncoder]                                     *)
(* ===================================================================== *)

Lemma zeros_length (n : nat) : String.length (fmt.zeros n) = n.
Proof. induction n as [|n IH]; simpl; congruence. Qed.

(** A bound on the number of digits, checked on every number below [n]. *)
Lemma digits_at_most (k n : nat) :
  forallb (fun i : nat =>
             Nat.leb (String.length (pretty (Z.abs_N (Z.of_nat i)))) k)
          (seq 0 n) = true ->
  forall z : Z,
    0 <= z < Z.of_nat n ->
    (String.length (pretty (Z.abs_N z)) <= k)%nat.
Proof.
  intros H z Hz. rewrite forallb_forall in H.
  specialize (H (Z.to_nat z)).
  rewrite Z2Nat.id in H by lia.
  apply Nat.leb_le, H, in_seq. lia.
Qed.

Lemma appendInt_width (z : Z) (k : nat) :
  0 <= z ->
  (String.length (pretty (Z.abs_N z)) <= k)%nat ->
  String.length (appendInt z k) = k.
Proof.
  intros Hz Hk. unfold appendInt.
  replace (z <? 0)%Z with false by (symmetry; apply Z.ltb_ge; lia).
  rewrite append_nil_l, string_app_length, zeros_length. lia.
Qed.

(** X18. For every reading of the wall clock with a year of at most four
    digits, the time stamp [timeEncoder] appends is exactly 23 bytes
    long: every field is padded with zeros to its full width, so the
    stamps of all records line up. *)
Theorem timeEncoder_fixed_width (t : time.Time) (nsec : Z) :
  wall_clock t nsec ->
  String.length (timeEncoder_string t nsec) = 23%nat.
Proof.
  intros (Hy & Hmo & Hd & Hh & Hmi & Hs & Hn).
  assert (H2 : forall z, 0 <= z < 100 ->
                 (String.length (pretty (Z.abs_N z)) <= 2)%nat)
    by (apply (digits_at_most 2 100); vm_compute; reflexivity).
  assert (H3 : forall z, 0 <= z < 1000 ->
                 (String.length (pretty (Z.abs_N z)) <= 3)%nat)
    by (apply (digits_at_most 3 1000); vm_compute; reflexivity).
  assert (H4 : forall z, 0 <= z < 10000 ->
                 (String.length (pretty (Z.abs_N z)) <= 4)%nat)
    by (apply (digits_at_most 4 (100 * 100)); vm_compute; reflexivity).
  assert (Hms : 0 <= nsec / 1000000 < 1000).
  { split; [apply Z.div_pos; lia |].
    apply Z.div_lt_upper_bound; lia. }
  unfold timeEncoder_string.
  rewrite !string_app_length.
  rewrite (appendInt_width (time.Year t) 4) by (try apply H4; lia).
  rewrite (appendInt_width (time.Month t) 2) by (try apply H2; lia).
  rewrite (appendInt_width (time.Day t) 2) by (try apply H2; lia).
  rewrite (appendInt_width (time.Hour t) 2) by (try apply H2; lia).
  rewrite (appendInt_width (time.Minute t) 2) by (try apply H2; lia).
  rewrite (appendInt_width (time.Second t) 2) by (try apply H2; lia).
  rewrite (appendInt_width (nsec / 1000000) 3) by (try apply H3; lia).
  reflexivity.
Qed.

Example timeEncoder_sample :
  timeEncoder_string sample_time 7654321 = "2024-01-02 10:30:00.007".
Proof. vm_compute. reflexivity. Qed.

(* ===================================================================== *)
(** * The further properties at sample inputs                             *)
(* ===================================================================== *)

Lemma NewLogger_success_record_witness :
  Level (final_Options sample_env
           [WithDevelopment true; WithLevel zapcore.WarnLevel])
  = zapcore.WarnLevel /\
  written sample_globals = written init.
Proof.
  split; [reflexivity |].
  destruct (NewLogger_success_record sample_env
              [WithDevelopment true; WithLevel zapcore.WarnLevel] init)
    as (z & g' & Hnew & _ & Hsilent).
  unfold sample_globals. rewrite Hnew. simpl snd.
  apply Hsilent. vm_compute. reflexivity.
Defined.

Lemma entry_points_after_NewLogger_witness :
  exists (z : zap.Logger),
    recv (Error sample_globals) = Some z /\
    call (Error sample_globals) "disk full" sample_globals
    = emit (map (write_of zapcore.ErrorLevel "disk full") (zap.core z))
           sample_globals.
Proof.
  destruct (entry_points_after_NewLogger sample_env
              [WithDevelopment true; WithLevel zapcore.WarnLevel] init
              "disk full") as (z & g' & Hnew & H).
  assert (Hg : g' = sample_globals)
    by (unfold sample_globals; now rewrite Hnew).
  subst g'. exists z.
  destruct (H (Error sample_globals) zapcore.ErrorLevel) as (Hr & _ & Hc).
  { unfold entry_points. do 3 apply list_elem_of_further.
    apply list_elem_of_here. }
  split; [exact Hr |]. exact Hc.
Defined.

Lemma bootstrap_logs_everything_witness :
  reachable sample_env init /\ l init = None /\
  call (Warn init) "not yet configured" init
  = emit [bootstrap_write zapcore.WarnLevel "not yet configured"] init.
Proof.
  split; [apply reach_init |]. split; [reflexivity |].
  apply (bootstrap_logs_everything sample_env init "not yet configured"
           (reach_init sample_env) eq_refl).
  unfold entry_points. do 2 apply list_elem_of_further.
  apply list_elem_of_here.
Defined.

Lemma Sync_panics_only_without_logger_witness :
  Sync sample_globals = (Returned tt, sample_globals) /\
  Sync sample_stopped = (Panicked nil_dereference, sample_stopped).
Proof.
  split.
  - destruct (Sync_panics_only_without_logger sample_globals)
      as (_ & _ & _ & H).
    apply (H sample_env). apply reach_NewLogger, reach_init.
  - destruct (Sync_panics_only_without_logger sample_stopped)
      as (Hs & _ & H & _).
    destruct (H 0%nat _ eq_refl eq_refl) as (Hp & _).
    rewrite (surjective_pairing (Sync sample_stopped)).
    now rewrite Hs, (Hp eq_refl).
Defined.

(** The [Logger] left by a [NewLogger] that an option stopped is not set
    up: it has no zap logger and is not marked [inited]. *)
Example stopped_Logger_is_not_in_sync :
  forall lg : Logger,
    loggers sample_stopped !! 0%nat = Some lg -> ~ in_sync lg.
Proof.
  intros lg Hlg (o & z & _ & Hz & _).
  injection Hlg as <-. discriminate Hz.
Qed.


Lemma SetLevel_frame_witness :
  reachable sample_env sample_globals /\
  rotators (snd (SetLevel zapcore.ErrorLevel sample_globals))
  = rotators sample_globals /\
  entry_points (snd (SetLevel zapcore.ErrorLevel sample_globals))
  = entry_points sample_globals.
Proof.
  assert (Hr : reachable sample_env sample_globals)
    by (apply reach_NewLogger, reach_init).
  split; [exact Hr |].
  destruct (SetLevel_frame sample_env sample_globals zapcore.ErrorLevel Hr)
    as (_ & _ & Hrot & Hep & _).
  split; [exact Hrot | exact Hep].
Defined.

Lemma SetLevel_success_record_witness :
  reachable sample_env sample_globals /\
  l sample_globals = Some 0%nat /\
  zapcore.InfoLevel < zapcore.ErrorLevel /\
  written (snd (SetLevel zapcore.ErrorLevel sample_globals))
  = written sample_globals.
Proof.
  assert (Hr : reachable sample_env sample_globals)
    by (apply reach_NewLogger, reach_init).
  assert (Hlt : zapcore.InfoLevel < zapcore.ErrorLevel)
    by (vm_compute; reflexivity).
  split; [exact Hr |]. split; [reflexivity |]. split; [exact Hlt |].
  destruct (SetLevel_success_record sample_env sample_globals
              zapcore.ErrorLevel 0%nat Hr eq_refl) as (z & _ & _ & Hsilent).
  exact (Hsilent Hlt).
Defined.

Lemma option_order_is_irrelevant_witness :
  Permutation sample_calls_a sample_calls_b /\
  NoDup (fields_written sample_calls_a) /\
  NewLogger sample_env (map eval_call sample_calls_a) init
  = NewLogger sample_env (map eval_call sample_calls_b) init.
Proof.
  assert (Hp : Permutation sample_calls_a sample_calls_b).
  { unfold sample_calls_a, sample_calls_b.
    apply (Permutation_cons_app [CallWithLevel zapcore.WarnLevel]
                                [CallWithMaxAge 7]).
    apply (Permutation_cons_app [CallWithLevel zapcore.WarnLevel] []).
    apply Permutation_refl. }
  assert (Hnd : NoDup (fields_written sample_calls_a)).
  { unfold fields_written, sample_calls_a. simpl.
    repeat (apply NoDup_cons; split;
            [intros Hin;
             repeat (apply elem_of_cons in Hin as [Hin|Hin];
                     [discriminate Hin |]);
             now apply elem_of_nil in Hin |]).
    apply NoDup_nil. exact I. }
  split; [exact Hp |]. split; [exact Hnd |].
  exact (option_order_is_irrelevant sample_env init sample_calls_a
           sample_calls_b Hp Hnd).
Defined.

Lemma overwritten_option_is_dead_witness :
  NewLogger sample_env (map eval_call sample_calls) init
  = NewLogger sample_env
      (map eval_call [CallWithMaxAge 7; CallWithAppName "gateway"]) init.
Proof.
  exact (overwritten_option_is_dead sample_env init []
           [CallWithMaxAge 7] [] (CallWithAppName "svc")
           (CallWithAppName "gateway") eq_refl).
Defined.

Lemma fileName_collision_witness :
  String.length "err" = 3%nat /\
  fileName sample_env default_Options "-err"
  = fileName sample_env default_Options "err".
Proof.
  split; [reflexivity |].
  exact (proj2 (fileName_collision sample_env default_Options "err" eq_refl)).
Defined.

Lemma default_directory_doubles_separator_witness :
  exists (r : lumberjack.Logger) (name : string),
    rotators (snd (NewLogger sample_env (map eval_call sample_calls) init))
      !! 0%nat = Some r /\
    lumberjack.Filename r = "/srv/logs/" +:+ "/" +:+ name.
Proof.
  destruct (default_directory_doubles_separator sample_env init sample_calls)
    as (z & g' & r & name & Hnew & Hr & _ & Hname).
  { intros c Hc. unfold sample_calls in Hc.
    repeat (apply elem_of_cons in Hc as [->|Hc]; [reflexivity |]).
    apply elem_of_nil in Hc. contradiction. }
  exists r, name. rewrite Hnew. simpl snd.
  split; [exact Hr | exact Hname].
Defined.

Lemma CatchException_keeps_existing_files_witness :
  exists w' : World,
    CatchException 2 sample_env sample_world = Some w' /\
    fs w' !! "/opt/app/exceptions/2024-01-02/exceptions.10_30_00.log"
    = Some (os.File "earlier dump").
Proof.
  destruct (CatchException 2 sample_env sample_world) as [w'|] eqn:H.
  - exists w'. split; [reflexivity |].
    apply (CatchException_keeps_existing_files 2 sample_env sample_world
             w' H).
    vm_compute. reflexivity.
  - vm_compute in H. discriminate H.
Defined.

Lemma CatchException_writes_dump_witness :
  exists w' : World,
    CatchException 2 sample_env sample_world = Some w' /\
    fs sample_world
      !! "/opt/app/exceptions/2024-01-02/exceptions.10_30_00_1.log" = None /\
    fs w' !! "/opt/app/exceptions/2024-01-02/exceptions.10_30_00_1.log"
    = Some (os.File
              (strLog sample_time "&errors.errorString{s:boom}"
                      (stack sample_env) +:+ nl)).
Proof.
  pose (fn := "/opt/app/exceptions/2024-01-02/exceptions.10_30_00_1.log").
  pose (w1 := {| fs := os.MkdirAll (denied sample_env) (fs sample_world)
                         (dump_dir sample_env sample_time);
                 stdout := ""; ticks := 1; panicking := None |}).
  assert (Hd : newDumpFile 2 sample_env (snd (recover sample_world))
               = Some (fn, w1)) by (vm_compute; reflexivity).
  assert (Ho : os.OpenFile (denied sample_env) (fs w1) fn
               = inl (<[fn := os.File ""]> (fs w1)))
    by (vm_compute; reflexivity).
  destruct (CatchException_writes_dump 2 sample_env sample_world w1
              "&errors.errorString{s:boom}" fn _ eq_refl Hd Ho)
    as (w' & Hc & Hnone & Hfile & _).
  exists w'. split; [exact Hc |]. split; [exact Hnone | exact Hfile].
Defined.

Lemma CatchException_without_value_witness :
  CatchException 0 sample_env
    {| fs := fs sample_world; stdout := ""; ticks := 0;
       panicking := Some nil_iface |}
  = Some {| fs := fs sample_world; stdout := ""; ticks := 0;
            panicking := None |}.
Proof.
  exact (CatchException_without_value 0 sample_env
           {| fs := fs sample_world; stdout := ""; ticks := 0;
              panicking := Some nil_iface |} (or_intror eq_refl)).
Defined.

Lemma directory_in_place_of_dump_witness :
  exists w' : World,
    CatchException 0 sample_env sample_world_dir = Some w' /\
    stdout w'
    = "open /opt/app/exceptions/2024-01-02/exceptions.10_30_00.log: is a directory"
        +:+ nl /\
    panicking w' = None.
Proof.
  pose proof (directory_in_place_of_dump 0 sample_env sample_world_dir
                "&errors.errorString{s:boom}" eq_refl) as H.
  cbv zeta in H. eexists. split.
  - apply H. vm_compute. reflexivity.
  - split; [vm_compute; reflexivity | reflexivity].
Defined.

Lemma timeEncoder_fixed_width_witness :
  wall_clock sample_time 7654321 /\
  String.length (timeEncoder_string sample_time 7654321) = 23%nat.
Proof.
  assert (H : wall_clock sample_time 7654321)
    by (unfold wall_clock; simpl; lia).
  split; [exact H |]. exact (timeEncoder_fixed_width sample_time 7654321 H).
Defined.
